(** * codex-trace: the delta engine, the log store and the stream classifier

    A shallow embedding of [codex-trace.py].  Python values that
    [json.loads] produces are an inductive type; a Python [str] is a Rocq
    [string] whose characters are the code points below 256; a Python
    [dict] is an association list in insertion order; a raised exception
    is the [Raise] case of a result type. *)

From Stdlib Require Import List String Ascii Bool Arith ZArith Lia.
From Stdlib Require Import Floats.SpecFloat DecimalString.
Import ListNotations.

Local Open Scope list_scope.
Local Open Scope string_scope.

(** ** Python [str] operations *)

Module PyStr.

(** The double quote, written by its code so that no literal holds one. *)
Definition dquote : ascii := ascii_of_nat 34.
Definition backslash : ascii := ascii_of_nat 92.
Definition newline : ascii := ascii_of_nat 10.

Definition char1 (c : ascii) : string := String c EmptyString.

Definition chars (s : string) : list ascii := list_ascii_of_string s.

(** [len(s)] *)
Definition len (s : string) : nat := String.length s.

(** [s[:n]] for [n >= 0] *)
Fixpoint take (n : nat) (s : string) : string :=
  match n, s with
  | S n', String c s' => String c (take n' s')
  | _, _ => EmptyString
  end.

(** [s[n:]] for [n >= 0] *)
Fixpoint drop (n : nat) (s : string) : string :=
  match n, s with
  | S n', String _ s' => drop n' s'
  | _, _ => s
  end.

(** [s.startswith(p)] *)
Definition startswith (p s : string) : bool := String.prefix p s.

(** [needle in s] *)
Fixpoint contains (needle s : string) : bool :=
  startswith needle s ||
  match s with
  | EmptyString => false
  | String _ s' => contains needle s'
  end.

(** [s.replace(old, new)], for a non-empty [old]: the matches are taken
    from the left and do not overlap.  [skip] counts the characters of a
    match that are still to be passed over. *)
Fixpoint replace_from (old new : string) (skip : nat) (s : string) : string :=
  match s with
  | EmptyString => EmptyString
  | String c s' =>
      match skip with
      | S n => replace_from old new n s'
      | O =>
          if startswith old s
          then new ++ replace_from old new (len old - 1) s'
          else String c (replace_from old new 0 s')
      end
  end.

Definition replace (old new s : string) : string :=
  replace_from old new 0 s.

(** [str.isspace] on one character: the white space among the code
    points below 256. *)
Definition isspace (c : ascii) : bool :=
  let n := nat_of_ascii c in
  (((9 <=? n) && (n <=? 13)) || ((28 <=? n) && (n <=? 32))
   || (n =? 133) || (n =? 160))%nat.

(** [s.lstrip()], [s.rstrip()], [s.strip()] *)
Fixpoint lstrip (s : string) : string :=
  match s with
  | EmptyString => EmptyString
  | String c s' => if isspace c then lstrip s' else s
  end.

Fixpoint rstrip (s : string) : string :=
  match s with
  | EmptyString => EmptyString
  | String c s' =>
      match rstrip s' with
      | EmptyString => if isspace c then EmptyString else char1 c
      | r => String c r
      end
  end.

Definition strip (s : string) : string := rstrip (lstrip s).

(** [s.split()]: the maximal runs of characters that are not white
    space.  [cur] is the run being read, reversed. *)
Fixpoint split_ws_from (cur : list ascii) (s : string) : list string :=
  match s with
  | EmptyString =>
      match cur with
      | [] => []
      | _ => [string_of_list_ascii (rev cur)]
      end
  | String c s' =>
      if isspace c
      then match cur with
           | [] => split_ws_from [] s'
           | _ => string_of_list_ascii (rev cur) :: split_ws_from [] s'
           end
      else split_ws_from (c :: cur) s'
  end.

Definition split_ws (s : string) : list string := split_ws_from [] s.

(** [s.split(sep)] for a separator of one character: every occurrence
    separates, so empty fields are kept. *)
Fixpoint split_char_from (sep : ascii) (cur : list ascii) (s : string)
  : list string :=
  match s with
  | EmptyString => [string_of_list_ascii (rev cur)]
  | String c s' =>
      if Ascii.eqb c sep
      then string_of_list_ascii (rev cur) :: split_char_from sep [] s'
      else split_char_from sep (c :: cur) s'
  end.

Definition split_char (sep : ascii) (s : string) : list string :=
  split_char_from sep [] s.

(** [sep.join(parts)] *)
Definition join (sep : string) (parts : list string) : string :=
  String.concat sep parts.

(** [len(s.splitlines())]: a line ends at a line boundary or at the end
    of a non-empty rest; carriage return followed by line feed is one
    boundary. *)
Definition islinebreak (c : ascii) : bool :=
  let n := nat_of_ascii c in
  (((10 <=? n) && (n <=? 13)) || ((28 <=? n) && (n <=? 30))
   || (n =? 133))%nat.

Fixpoint count_lines_from (pending after_cr : bool) (s : string) : nat :=
  match s with
  | EmptyString => if pending then 1 else 0
  | String c s' =>
      if after_cr && Ascii.eqb c newline
      then count_lines_from false false s'
      else if islinebreak c
           then S (count_lines_from false (nat_of_ascii c =? 13)%nat s')
           else count_lines_from true false s'
  end.

Definition count_lines (s : string) : nat := count_lines_from false false s.

(** [str(n)] for an [int] *)
Definition str_of_nat (n : nat) : string :=
  NilEmpty.string_of_uint (Nat.to_uint n).

Definition str_of_Z (z : Z) : string :=
  NilEmpty.string_of_int (Z.to_int z).

End PyStr.

(** ** Exceptions *)

Inductive exn : Type :=
| IndexError
| KeyError
| TypeError
| AttributeError
| JSONDecodeError
| OtherError.

Inductive result (A : Type) : Type :=
| Ok (a : A)
| Raise (e : exn).

Arguments Ok {A} a.
Arguments Raise {A} e.

Definition bind {A B : Type} (r : result A) (k : A -> result B) : result B :=
  match r with
  | Ok a => k a
  | Raise e => Raise e
  end.

Notation "x <- r ;; k" := (bind r (fun x => k))
  (at level 61, r at next level, right associativity).
Notation "' p <- r ;; k" := (bind r (fun p => k))
  (at level 61, p pattern, r at next level, right associativity).

(** ** JSON values as Python holds them *)

Module Json.

(** What [json.loads] returns: [None], [bool], [int], [float], [str],
    [list] and [dict] with [str] keys.  A [dict] keeps its entries in
    insertion order.  The keys of a Python dict are distinct; where a
    list of entries repeats a key, the first entry is the one that
    [lookup] and [mem] see. *)
Unset Elimination Schemes.
Inductive value : Type :=
| JNull
| JBool (b : bool)
| JInt (n : Z)
| JFloat (f : spec_float)
| JStr (s : string)
| JList (items : list value)
| JDict (entries : list (string * value)).
Set Elimination Schemes.

Definition dict : Type := list (string * value).

Section ValueInd.
Variable P : value -> Prop.
Hypothesis Hnull : P JNull.
Hypothesis Hbool : forall b, P (JBool b).
Hypothesis Hint : forall n, P (JInt n).
Hypothesis Hfloat : forall f, P (JFloat f).
Hypothesis Hstr : forall s, P (JStr s).
Hypothesis Hlist : forall items, Forall P items -> P (JList items).
Hypothesis Hdict :
  forall entries, Forall (fun kv => P (snd kv)) entries -> P (JDict entries).

Fixpoint value_ind (v : value) : P v :=
  match v with
  | JNull => Hnull
  | JBool b => Hbool b
  | JInt n => Hint n
  | JFloat f => Hfloat f
  | JStr s => Hstr s
  | JList items =>
      Hlist items
        ((fix go (l : list value) : Forall P l :=
            match l with
            | [] => Forall_nil P
            | x :: l' => Forall_cons x (value_ind x) (go l')
            end) items)
  | JDict entries =>
      Hdict entries
        ((fix go (l : list (string * value))
           : Forall (fun kv => P (snd kv)) l :=
            match l with
            | [] => Forall_nil _
            | kv :: l' => Forall_cons kv (value_ind (snd kv)) (go l')
            end) entries)
  end.
End ValueInd.

(** *** [dict] operations *)

(** [k in d] *)
Fixpoint mem {A : Type} (k : string) (d : list (string * A)) : bool :=
  match d with
  | [] => false
  | (k', _) :: d' => String.eqb k k' || mem k d'
  end.

(** [d[k]], [None] standing for the [KeyError] *)
Fixpoint lookup {A : Type} (k : string) (d : list (string * A)) : option A :=
  match d with
  | [] => None
  | (k', v) :: d' => if String.eqb k k' then Some v else lookup k d'
  end.

(** [d[k] = v]: an existing key keeps its place, a new one goes last. *)
Fixpoint dict_set {A : Type} (d : list (string * A)) (k : string) (v : A)
  : list (string * A) :=
  match d with
  | [] => [(k, v)]
  | (k', v') :: d' =>
      if String.eqb k k' then (k', v) :: d' else (k', v') :: dict_set d' k v
  end.

(** [d.keys()] *)
Definition keys {A : Type} (d : list (string * A)) : list string :=
  map fst d.

Definition in_keys (k : string) (ks : list string) : bool :=
  existsb (String.eqb k) ks.

(** [sorted(s)] for a set of [str]: ascending by code point. *)
Fixpoint insert_sorted (k : string) (l : list string) : list string :=
  match l with
  | [] => [k]
  | k' :: l' => if String.leb k k' then k :: l else k' :: insert_sorted k l'
  end.

Definition sorted (l : list string) : list string :=
  fold_right insert_sorted [] l.

(** [sorted(set(a) - set(b))] and [sorted(set(a) & set(b))] *)
Definition sorted_difference (a b : list string) : list string :=
  sorted (nodup string_dec (filter (fun k => negb (in_keys k b)) a)).

Definition sorted_intersection (a b : list string) : list string :=
  sorted (nodup string_dec (filter (fun k => in_keys k b) a)).

(** *** Python's [==] *)

Definition Z_of_bool (b : bool) : Z := if b then 1%Z else 0%Z.

(** An [int] equals a [float] when the float is finite and its exact
    value is that integer. *)
Definition int_eq_float (n : Z) (f : spec_float) : bool :=
  match f with
  | S754_zero _ => (n =? 0)%Z
  | S754_finite s m e =>
      let v := if s then Z.neg m else Z.pos m in
      if (0 <=? e)%Z then (n =? v * 2 ^ e)%Z else (n * 2 ^ (- e) =? v)%Z
  | _ => false
  end.

(** [a == b] on the operands the program compares with it: at least one
    of them is not a container, or they are containers of different
    kinds.  ([bool] is a subtype of [int]; numbers compare by value;
    a NaN equals nothing.)  Two lists or two dicts never reach a
    comparison in this program; the function answers [false] there. *)
Definition py_eq (a b : value) : bool :=
  match a, b with
  | JNull, JNull => true
  | JBool x, JBool y => Bool.eqb x y
  | JBool x, JInt n | JInt n, JBool x => (n =? Z_of_bool x)%Z
  | JBool x, JFloat f | JFloat f, JBool x => int_eq_float (Z_of_bool x) f
  | JInt n, JInt m => (n =? m)%Z
  | JInt n, JFloat f | JFloat f, JInt n => int_eq_float n f
  | JFloat f, JFloat g => SFeqb f g
  | JStr s, JStr t => String.eqb s t
  | _, _ => false
  end.

(** *** JSON values

    RFC 8259 has no NaN: the values that a JSON text denotes are the
    ones in which no [float] is a NaN.  ([json.loads] also reads the
    token [NaN], an extension outside JSON.) *)
Definition is_nan (f : spec_float) : bool :=
  match f with
  | S754_nan => true
  | _ => false
  end.

Fixpoint nan_free (v : value) : bool :=
  match v with
  | JFloat f => negb (is_nan f)
  | JList items => forallb nan_free items
  | JDict entries => forallb (fun kv => nan_free (snd kv)) entries
  | _ => true
  end.

Definition json_value (v : value) : Prop := nan_free v = true.

Definition is_dict (v : value) : bool :=
  match v with JDict _ => true | _ => false end.

Definition is_list (v : value) : bool :=
  match v with JList _ => true | _ => false end.

End Json.


(** ** What the program takes from outside its source *)

(** The three outcomes of a call of [json.loads] on a [str]: a value, the
    [json.JSONDecodeError] of a malformed text, or another exception. *)
Inductive loads_result : Type :=
| LoadsValue (v : Json.value)
| LoadsDecodeError
| LoadsOtherError.

(** Library functions and constants that the embedding does not spell
    out: the JSON parser, the text of a finite [float], the text that
    [str()] gives for a value that is not a [str], the page shell written
    at the head of each document, and the directory of the documents. *)
Record env : Type := {
  json_loads : string -> loads_result;
  float_repr : spec_float -> string;
  str_of_value : Json.value -> string;
  preamble : string;
  log_dir : string
}.

(** A reading of the wall clock, [datetime.now()]. *)
Record datetime : Type := {
  year : nat; month : nat; day : nat;
  hour : nat; minute : nat; second : nat
}.

Module Clock.
Import PyStr.

(** A number in decimal, padded with zeros on the left to [width]. *)
Definition zero_pad (width n : nat) : string :=
  let digits := str_of_nat n in
  String.concat EmptyString (repeat "0" (width - len digits)) ++ digits.

(** [t.strftime('%Y-%m-%dT%H%M%S')] *)
Definition strftime_file (t : datetime) : string :=
  zero_pad 4 (year t) ++ "-" ++ zero_pad 2 (month t) ++ "-"
  ++ zero_pad 2 (day t) ++ "T" ++ zero_pad 2 (hour t)
  ++ zero_pad 2 (minute t) ++ zero_pad 2 (second t).

(** [t.strftime('%H:%M:%S')] *)
Definition strftime_hms (t : datetime) : string :=
  zero_pad 2 (hour t) ++ ":" ++ zero_pad 2 (minute t) ++ ":"
  ++ zero_pad 2 (second t).
End Clock.
(** ** The delta engine: [calculate_json_delta] *)

Module Delta.
Import Json.

(** The marker written first in a delta list that only appends. *)
Definition sentinel : value := JStr "...".

(** The four key forms of a dict delta. *)
Definition removed_key (k : string) : string := "-" ++ k.
Definition added_key (k : string) : string := "+" ++ k.
Definition changed_key (k : string) : string := "*" ++ k.
Definition appended_key (k : string) : string := k ++ "+".

(** [for k in sorted(prev_keys - new_keys): delta[f"-{k}"] = None] *)
Definition removed_loop (ks : list string) (delta : dict) : dict :=
  fold_left (fun d k => dict_set d (removed_key k) JNull) ks delta.

(** [for k in sorted(new_keys - prev_keys): delta[f"+{k}"] = newl[k]] *)
Fixpoint added_loop (newl : dict) (ks : list string) (delta : dict)
  : result dict :=
  match ks with
  | [] => Ok delta
  | k :: ks' =>
      match lookup k newl with
      | None => Raise KeyError
      | Some v => added_loop newl ks' (dict_set delta (added_key k) v)
      end
  end.

(** The body of the third loop, after the recursive call returned
    [(identical, subdelta)].  [subdelta[0]] raises on the empty list. *)
Definition record_change (k : string) (identical : bool) (subdelta : value)
    (delta : dict) : result dict :=
  if identical then Ok delta
  else
    match subdelta with
    | JList [] => Raise IndexError
    | JList (first :: rest) =>
        if py_eq first sentinel
        then Ok (dict_set delta (appended_key k) (JList rest))
        else Ok (dict_set delta (changed_key k) subdelta)
    | _ => Ok (dict_set delta (changed_key k) subdelta)
    end.

(** [for k in sorted(prev_keys & new_keys): ...], where [rec k v] is the
    recursive call [calculate_json_delta(prevl[k], v)]. *)
Fixpoint common_loop (rec : string -> value -> result (bool * value))
    (newl : dict) (ks : list string) (delta : dict) : result dict :=
  match ks with
  | [] => Ok delta
  | k :: ks' =>
      match lookup k newl with
      | None => Raise KeyError
      | Some v =>
          '(identical, subdelta) <- rec k v ;;
          delta' <- record_change k identical subdelta delta ;;
          common_loop rec newl ks' delta'
      end
  end.

(** The branch for two dicts. *)
Definition dict_branch (rec : string -> value -> result (bool * value))
    (prev_keys : list string) (newl : dict) : result (bool * value) :=
  let new_keys := keys newl in
  let delta := removed_loop (sorted_difference prev_keys new_keys) [] in
  delta <- added_loop newl (sorted_difference new_keys prev_keys) delta ;;
  delta <- common_loop rec newl (sorted_intersection prev_keys new_keys) delta ;;
  Ok (Nat.eqb (List.length delta) 0, JDict delta).

(** [all(calculate_json_delta(a, b)[0] for (a, b) in zip(prevl, newl))]:
    the pairs are compared in order and the first one that is not
    identical ends the iteration.  [recs] holds the calls
    [calculate_json_delta(a, _)] of the items of [prevl]. *)
Fixpoint all_identical (recs : list (value -> result (bool * value)))
    (newl : list value) : result bool :=
  match recs, newl with
  | rec :: recs', b :: newl' =>
      '(identical, _) <- rec b ;;
      if identical then all_identical recs' newl' else Ok false
  | _, _ => Ok true
  end.

(** The branch for two lists. *)
Definition list_branch (recs : list (value -> result (bool * value)))
    (newl : list value) : result (bool * value) :=
  let n := List.length recs in
  if (n <=? List.length newl)%nat then
    all_true <- all_identical recs newl ;;
    if all_true && (n =? List.length newl)%nat then Ok (true, JList [])
    else if all_true && (n <? List.length newl)%nat
         then Ok (false, JList (sentinel :: skipn n newl))
         else Ok (false, JList newl)
  else Ok (false, JList newl).

(** The recursion is structural in [prev]: each branch first builds the
    recursive calls on the items of [prev] and then reads [new]. *)
Fixpoint calculate_json_delta (prev : value) : value -> result (bool * value) :=
  match prev with
  | JDict prevl =>
      let recs :=
        (fix calls (es : dict) : list (string * (value -> result (bool * value))) :=
           match es with
           | [] => []
           | (k, v) :: es' => (k, calculate_json_delta v) :: calls es'
           end) prevl in
      fun new =>
        match new with
        | JDict newl =>
            dict_branch
              (fun k v => match lookup k recs with
                          | Some rec => rec v
                          | None => Raise KeyError
                          end)
              (keys prevl) newl
        | _ => Ok (py_eq prev new, new)
        end
  | JList prevl =>
      let recs :=
        (fix calls (l : list value) : list (value -> result (bool * value)) :=
           match l with
           | [] => []
           | v :: l' => calculate_json_delta v :: calls l'
           end) prevl in
      fun new =>
        match new with
        | JList newl => list_branch recs newl
        | _ => Ok (py_eq prev new, new)
        end
  | _ => fun new => Ok (py_eq prev new, new)
  end.

(** *** Notions used to state the properties of the engine *)

(** The recursive call of the dict branch: [calculate_json_delta(prevl[k], v)]. *)
Definition rec_call (prevl : dict) (k : string) (v : value)
  : result (bool * value) :=
  match lookup k prevl with
  | Some pv => calculate_json_delta pv v
  | None => Raise KeyError
  end.

(** The empty delta of the kind of [x]. *)
Definition empty_like (x : value) : value :=
  match x with
  | JDict _ => JDict []
  | JList _ => JList []
  | _ => x
  end.

(** A key of one of the four marker forms. *)
Definition marker_key (s : string) : Prop :=
  exists k, s = removed_key k \/ s = added_key k
            \/ s = changed_key k \/ s = appended_key k.

(** The three results of the list branch. *)
Definition list_result (recs : list (value -> result (bool * value)))
    (newl : list value) (b : bool) (d : value) : Prop :=
  (b = true /\ d = JList []
   /\ List.length recs = List.length newl
   /\ all_identical recs newl = Ok true)
  \/ (b = false /\ d = JList (sentinel :: skipn (List.length recs) newl)
      /\ List.length recs < List.length newl
      /\ all_identical recs newl = Ok true)
  \/ (b = false /\ d = JList newl
      /\ (List.length newl < List.length recs
          \/ all_identical recs newl = Ok false)).

(** A key that starts with one of the three marker characters. *)
Definition prefix_marked (k : string) : bool :=
  match k with
  | String c _ => Ascii.eqb c "-" || Ascii.eqb c "+" || Ascii.eqb c "*"
  | EmptyString => false
  end.

Definition all_marked (delta : dict) : Prop :=
  Forall (fun k => prefix_marked k = true) (keys delta).

(** A dict none of whose values is a list or a dict. *)
Definition flat (d : dict) : Prop :=
  forall k v, In (k, v) d -> is_list v = false /\ is_dict v = false.

(** [a] and [b] are identical for the engine. *)
Definition identical (a b : value) : Prop :=
  exists d, calculate_json_delta a b = Ok (true, d).

(** The last character of a key is the plus sign. *)
Fixpoint ends_with_plus (k : string) : bool :=
  match k with
  | EmptyString => false
  | String c EmptyString => Ascii.eqb c "+"
  | String _ rest => ends_with_plus rest
  end.

(** C1 as it is written.  A pure append: [newl] is [prevl] followed by
    at least one more item. *)
Definition pure_append (prevl newl : list value) : Prop :=
  exists extra, extra <> [] /\ newl = (prevl ++ extra)%list.

Definition shape_as_stated (prev new : value) : Prop :=
  exists b d,
    calculate_json_delta prev new = Ok (b, d)
    /\ match prev, new with
       | JDict _, JDict _ =>
           exists delta, d = JDict delta /\ Forall marker_key (keys delta)
       | JList prevl, JList newl => ~ pure_append prevl newl -> d = new
       | _, _ => d = new
       end.

End Delta.

(** ** The log store: [json.dumps] and [log] *)

Module LogStore.
Import PyStr Json.

(** Two hexadecimal digits, lower case. *)
Definition hex_digit (n : nat) : ascii :=
  ascii_of_nat (if (n <? 10)%nat then 48 + n else 87 + n).

Definition hex2 (n : nat) : string :=
  String (hex_digit (n / 16)) (char1 (hex_digit (n mod 16))).

(** One character of a string in JSON text, [ensure_ascii=False]: the
    quote, the backslash and the control characters are escaped. *)
Definition escape_char (c : ascii) : string :=
  let n := nat_of_ascii c in
  if (n =? 34)%nat then String backslash (char1 dquote)
  else if (n =? 92)%nat then String backslash (char1 backslash)
  else if (n =? 10)%nat then String backslash "n"
  else if (n =? 13)%nat then String backslash "r"
  else if (n =? 9)%nat then String backslash "t"
  else if (n =? 8)%nat then String backslash "b"
  else if (n =? 12)%nat then String backslash "f"
  else if (n <? 32)%nat then String backslash ("u00" ++ hex2 n)
  else char1 c.

Fixpoint escape_chars (s : string) : string :=
  match s with
  | EmptyString => EmptyString
  | String c s' => escape_char c ++ escape_chars s'
  end.

Definition encode_str (s : string) : string :=
  String dquote (escape_chars s ++ char1 dquote).

Section Dumps.
Variable E : env.

Definition dumps_float (f : spec_float) : string :=
  match f with
  | S754_nan => "NaN"
  | S754_infinity false => "Infinity"
  | S754_infinity true => "-Infinity"
  | _ => float_repr E f
  end.

(** [json.dumps(v, ensure_ascii=False)] *)
Fixpoint dumps (v : value) : string :=
  match v with
  | JNull => "null"
  | JBool true => "true"
  | JBool false => "false"
  | JInt n => str_of_Z n
  | JFloat f => dumps_float f
  | JStr s => encode_str s
  | JList items => "[" ++ join ", " (map dumps items) ++ "]"
  | JDict entries =>
      "{" ++ join ", "
               (map (fun kv => encode_str (fst kv) ++ ": " ++ dumps (snd kv))
                    entries)
      ++ "}"
  end.

(** The text of one log entry, without its final line feed:
    [json.dumps(jj, ensure_ascii=False).replace(">", "\\u003e").replace("--", "-\\u002d")] *)
Definition neutralize (s : string) : string :=
  replace "--" (String "-" (String backslash "u002d"))
    (replace ">" (String backslash "u003e") s).

Definition log_line (jj : value) : string := neutralize (dumps jj).

(** The documents on disk, by path.  Every operation on a file succeeds:
    errors of the file system are outside the model. *)
Definition filesystem : Type := list (string * string).

Definition log_path (timestamp : datetime) (prompt : string) : string :=
  log_dir E ++ "/" ++ Clock.strftime_file timestamp ++ prompt ++ ".html".

(** [f.write] in append mode; opening creates a missing file empty. *)
Definition append_text (fs : filesystem) (path text : string) : filesystem :=
  match lookup path fs with
  | Some old => dict_set fs path (old ++ text)
  | None => dict_set fs path text
  end.

(** The file part of [log], once the path is known: the shell goes
    first into a document that does not exist yet, then the entry and
    a line feed are appended. *)
Definition write_entry (fs : filesystem) (path : string) (jj : value)
  : filesystem :=
  let need_preamble := negb (mem path fs) in
  let fs1 := if need_preamble then append_text fs path (preamble E) else fs in
  append_text fs1 path (log_line jj ++ char1 newline).

End Dumps.

(** The character [>]. *)
Definition gt : ascii := ascii_of_nat 62.

End LogStore.

(** ** The normalizer: [render_delta] and [render_response] *)

Module Render.
Import PyStr Json.

(** [esc] *)
Definition esc (value : string) : string :=
  replace ">" "&gt;" (replace "<" "&lt;" (replace "&" "&amp;" value)).

(** [short]: [" ".join(s.split()[:15])[:80] + f"... [{len(lines)} lines]"] *)
Definition short (s : string) : string :=
  let lines := count_lines s in
  take 80 (join " " (firstn 15 (split_ws s)))
  ++ "... [" ++ str_of_nat lines ++ " lines]".

(** [re.split(r'## My request for Codex:\s*', text, maxsplit=1)[-1]]:
    what follows the first occurrence of the marker and the white space
    after it, or the whole text when the marker does not occur. *)
Definition request_marker : string := "## My request for Codex:".

Fixpoint after_marker_from (text : string) : option string :=
  if startswith request_marker text
  then Some (lstrip (drop (len request_marker) text))
  else match text with
       | EmptyString => None
       | String _ text' => after_marker_from text'
       end.

Definition after_request_marker (text : string) : string :=
  match after_marker_from text with
  | Some rest => rest
  | None => text
  end.

(** *** Operations that raise on an operand of the wrong type *)

(** [v[k]] for a [str] key: defined on a dict that has the key. *)
Definition getitem (v : value) (k : string) : result value :=
  match v with
  | JDict d =>
      match lookup k d with
      | Some x => Ok x
      | None => Raise KeyError
      end
  | _ => Raise TypeError
  end.

(** [v.get(k, default)]: a method of dicts only. *)
Definition get_method (v : value) (k : string) (default : value)
  : result value :=
  match v with
  | JDict d =>
      match lookup k d with
      | Some x => Ok x
      | None => Ok default
      end
  | _ => Raise AttributeError
  end.

(** The receiver of a [str] method ([replace], [splitlines],
    [startswith]): any other value has no such attribute. *)
Definition str_receiver (v : value) : result string :=
  match v with
  | JStr s => Ok s
  | _ => Raise AttributeError
  end.

(** The [str] argument that [re.split] and [json.loads] require. *)
Definition str_argument (v : value) : result string :=
  match v with
  | JStr s => Ok s
  | _ => Raise TypeError
  end.

(** [for x in v]: the items of a list, the keys of a dict, the
    characters of a [str]; nothing else is iterable. *)
Definition iterate (v : value) : result (list value) :=
  match v with
  | JList items => Ok items
  | JDict d => Ok (map JStr (keys d))
  | JStr s => Ok (map (fun c => JStr (char1 c)) (chars s))
  | _ => Raise TypeError
  end.

(** [len(v)] *)
Definition py_len (v : value) : result nat :=
  match v with
  | JList items => Ok (List.length items)
  | JDict d => Ok (List.length d)
  | JStr s => Ok (len s)
  | _ => Raise TypeError
  end.

(** A loop that appends to one list: the entries that each item
    contributes, in order, up to the first exception. *)
Fixpoint collect (f : value -> result (list value)) (xs : list value)
  : result (list value) :=
  match xs with
  | [] => Ok []
  | x :: xs' =>
      ys <- f x ;;
      zs <- collect f xs' ;;
      Ok (ys ++ zs)%list
  end.

Section WithEnv.
Variable E : env.

(** [str(v)] *)
Definition py_str (v : value) : string :=
  match v with
  | JStr s => s
  | _ => str_of_value E v
  end.

(** [json.loads(v)] inside [try: ... except (json.JSONDecodeError, TypeError)],
    the handler yielding [v] itself. *)
Definition loads_or_self (catch_type_error : bool) (v : value)
  : result value :=
  match v with
  | JStr s =>
      match json_loads E s with
      | LoadsValue parsed => Ok parsed
      | LoadsDecodeError => Ok v
      | LoadsOtherError => Raise OtherError
      end
  | _ => if catch_type_error then Ok v else Raise TypeError
  end.

(** The preview of a shell command, or the ellipsis. *)
Definition short_arguments (name arguments : value) : result string :=
  if py_eq name (JStr "shell") then
    match arguments with
    | JDict d =>
        match lookup "command" d with
        | Some (JList command) =>
            match command with
            | c0 :: c1 :: c2 :: _ =>
                if py_eq c0 (JStr "bash") then
                  flag <- str_receiver c1 ;;
                  if startswith "-" flag then
                    match c2 with
                    | JStr text =>
                        Ok (esc (replace (char1 newline) " " (take 50 text)
                                 ++ (if (50 <? len text)%nat then "..."
                                     else EmptyString)))
                    | JList _ => Raise AttributeError
                    | _ => Raise TypeError
                    end
                  else Ok "..."
                else Ok "..."
            | _ => Ok "..."
            end
        | _ => Ok "..."
        end
    | _ => Ok "..."
    end
  else Ok "...".

(** [render_function_call] *)
Definition render_function_call (i : value) (bold : bool) : result value :=
  raw <- getitem i "arguments" ;;
  arguments <- loads_or_self true raw ;;
  name <- getitem i "name" ;;
  shortargs <- short_arguments name arguments ;;
  let b1 := if bold then "<b>" else EmptyString in
  let b2 := if bold then "</b>" else EmptyString in
  name_text <- str_receiver name ;;
  Ok (JDict [("RENDER", JBool true);
             ("label", JStr ("function_call: " ++ b1 ++ esc name_text
                             ++ "(" ++ shortargs ++ ")" ++ b2));
             ("content", arguments)]).

(** The entry of the [instructions] key. *)
Definition render_instructions (instructions : value) : result value :=
  text <- str_receiver instructions ;;
  Ok (JDict [("RENDER", JBool true);
             ("label", JStr "instructions: ");
             ("value", JStr (esc (short text)));
             ("content", instructions)]).

(** [tool["parameters"] | {"description": tool["description"]}] *)
Definition merge_description (parameters description : value)
  : result value :=
  match parameters with
  | JDict d => Ok (JDict (dict_set d "description" description))
  | _ => Raise TypeError
  end.

Definition render_tool (tool : value) : result (list value) :=
  name <- getitem tool "name" ;;
  name_text <- str_receiver name ;;
  parameters <- getitem tool "parameters" ;;
  description <- getitem tool "description" ;;
  content <- merge_description parameters description ;;
  Ok [JDict [("RENDER", JBool true);
             ("label", JStr ("tool: " ++ esc name_text));
             ("content", content)]].

(** The entry of the [tools] key. *)
Definition render_tools (tools : value) : result value :=
  items <- iterate tools ;;
  tools_content <- collect render_tool items ;;
  n <- py_len tools ;;
  Ok (JDict [("RENDER", JBool true);
             ("label", JStr "tools: ");
             ("value", JStr ("[" ++ str_of_nat n ++ " tools]"));
             ("content", JList tools_content)]).

(** One content item of a [message] block. *)
Definition render_message_item (c : value) : result (list value) :=
  text_value <- getitem c "text" ;;
  text <- str_argument text_value ;;
  let value := short (after_request_marker text) in
  ctype <- getitem c "type" ;;
  let bold := py_eq ctype (JStr "input_text") in
  let b1 := if bold then "<b>" else EmptyString in
  let b2 := if bold then "</b>" else EmptyString in
  ctype_text <- str_receiver ctype ;;
  Ok [JDict [("RENDER", JBool true);
             ("label", JStr (esc ctype_text ++ ": "));
             ("value", JStr (b1 ++ esc value ++ b2));
             ("content", text_value)]].

(** A [function_call_output] block. *)
Definition render_call_output (i : value) : result (list value) :=
  raw <- getitem i "output" ;;
  parsed <- loads_or_self false raw ;;
  let '(output, value) :=
    match parsed with
    | JDict d =>
        match lookup "output" d with
        | Some (JStr inner) => (JStr inner, short inner)
        | _ => (parsed, EmptyString)
        end
    | _ => (parsed, EmptyString)
    end in
  Ok [JDict [("RENDER", JBool true);
             ("label", JStr "function_call_output: ");
             ("value", JStr ("<b>" ++ esc value ++ "</b>"));
             ("content", output)]].

(** One block of [input] or [input+], by its type tag. *)
Definition render_input_block (i : value) : result (list value) :=
  tag <- getitem i "type" ;;
  if py_eq tag (JStr "message") then
    content <- getitem i "content" ;;
    items <- iterate content ;;
    collect render_message_item items
  else if py_eq tag (JStr "function_call") then
    node <- render_function_call i false ;;
    Ok [node]
  else if py_eq tag (JStr "function_call_output") then
    render_call_output i
  else Ok [].

(** The body of the [try] of [render_delta], on the dict [d]. *)
Definition render_delta_body (now : datetime) (d : dict) : result value :=
  part1 <- match lookup "instructions" d with
           | Some instructions =>
               node <- render_instructions instructions ;; Ok [node]
           | None => Ok []
           end ;;
  part2 <- match lookup "tools" d with
           | Some tools => node <- render_tools tools ;; Ok [node]
           | None => Ok []
           end ;;
  part3 <- (if mem "input" d || mem "input+" d then
              let input_blocks :=
                match lookup "input" d with
                | Some v => v
                | None =>
                    match lookup "input+" d with
                    | Some v => v
                    | None => JList []
                    end
                end in
              items <- iterate input_blocks ;;
              collect render_input_block items
            else Ok []) ;;
  let raw := JDict [("RENDER", JBool true);
                    ("label", JStr "[raw json]");
                    ("content", JDict d)] in
  Ok (JDict [("RENDER", JBool true);
             ("label", JStr ("[" ++ Clock.strftime_hms now ++ "] POST"));
             ("open", JBool true);
             ("content", JList (part1 ++ part2 ++ part3 ++ [raw])%list)]).

(** [{"instructions","tools","input","input+"}.isdisjoint(d)] *)
Definition no_known_key (d : dict) : bool :=
  negb (mem "instructions" d || mem "tools" d
        || mem "input" d || mem "input+" d).

(** [render_delta]: [except Exception] returns the dict as it came. *)
Definition render_delta (now : datetime) (delta : value) : result value :=
  match delta with
  | JDict d =>
      if no_known_key d then Ok delta
      else match render_delta_body now d with
           | Ok rendered => Ok rendered
           | Raise _ => Ok delta
           end
  | _ => Ok delta
  end.

(** One summary segment of a [reasoning] item. *)
Definition render_summary (summary : value) : result (list value) :=
  stype <- getitem summary "type" ;;
  stype_text <- str_receiver stype ;;
  text_value <- getitem summary "text" ;;
  text <- str_receiver text_value ;;
  Ok [JDict [("RENDER", JBool true);
             ("label", JStr (esc stype_text ++ ": "));
             ("value", JStr (esc (short text)));
             ("content", text_value)]].

(** One content part of a [message] item of a response. *)
Definition render_response_part (c : value) : result (list value) :=
  text_value <- get_method c "text" (JStr "???") ;;
  let text := py_str text_value in
  ctype <- getitem c "type" ;;
  ctype_text <- str_receiver ctype ;;
  Ok [JDict [("RENDER", JBool true);
             ("label", JStr (esc ctype_text ++ ": "));
             ("value", JStr ("<b>" ++ esc (short text) ++ "</b>"));
             ("content", JStr text)]].

(** One item of [response["response"]["output"]], by its type tag. *)
Definition render_output_item (output : value) : result (list value) :=
  tag <- getitem output "type" ;;
  if py_eq tag (JStr "reasoning") then
    summaries <- getitem output "summary" ;;
    items <- iterate summaries ;;
    reasoning <- collect render_summary items ;;
    encrypted <- get_method output "encrypted_content" (JStr EmptyString) ;;
    Ok [JDict [("RENDER", JBool true);
               ("label", JStr ("reasoning: ["
                               ++ str_of_nat (len (py_str encrypted))
                               ++ " bytes]"));
               ("open", JBool true);
               ("content", JList reasoning)]]
  else if py_eq tag (JStr "function_call") then
    node <- render_function_call output true ;;
    Ok [node]
  else if py_eq tag (JStr "message") then
    content <- getitem output "content" ;;
    items <- iterate content ;;
    collect render_response_part items
  else Ok [].

(** The body of the [try] of [render_response]. *)
Definition render_response_body (now : datetime) (response : value)
  : result value :=
  inner <- getitem response "response" ;;
  outputs <- getitem inner "output" ;;
  items <- iterate outputs ;;
  content <- collect render_output_item items ;;
  let raw := JDict [("RENDER", JBool true);
                    ("label", JStr "[raw json]");
                    ("content", response)] in
  Ok (JDict [("RENDER", JBool true);
             ("label", JStr ("[" ++ Clock.strftime_hms now
                             ++ "] response.completed"));
             ("open", JBool true);
             ("content", JList (content ++ [raw])%list)]).

(** [render_response]: [except Exception] returns the response as it came. *)
Definition render_response (now : datetime) (response : value)
  : result value :=
  match render_response_body now response with
  | Ok rendered => Ok rendered
  | Raise _ => Ok response
  end.

End WithEnv.

End Render.

(** ** The stream classifier: the loop of [main] *)

Module Classifier.
Import PyStr Json.

(** *** The line patterns *)

Definition brace : ascii := ascii_of_nat 123.

(** The part of a line before its first opening brace. *)
Fixpoint before_brace (line : string) : string :=
  match line with
  | EmptyString => EmptyString
  | String c rest =>
      if Ascii.eqb c brace then EmptyString else String c (before_brace rest)
  end.

Definition has_brace (line : string) : bool := contains (char1 brace) line.

(** [re.search(r"^[^{]*Configuring session", line)]: the phrase holds no
    brace, so the pattern matches when the phrase occurs before the
    first brace of the line. *)
Definition is_session_start (line : string) : bool :=
  contains "Configuring session" (before_brace line).

(** [re.search(r"^[^{]*Submission", line)] *)
Definition is_submission (line : string) : bool :=
  contains "Submission" (before_brace line).

(** [re.search(r"^[^{]*POST to[^{]*{", line)] *)
Definition is_post (line : string) : bool :=
  contains "POST to" (before_brace line) && has_brace line.

(** [re.search(r"^[^{]*SSE event: [^{]*{", line)] *)
Definition is_sse_event (line : string) : bool :=
  contains "SSE event: " (before_brace line) && has_brace line.

(** [line[line.find("{"):].strip()]; [find] answers -1 when there is no
    brace, and the slice is then the last character. *)
Fixpoint from_brace (line : string) : option string :=
  match line with
  | EmptyString => None
  | String c rest =>
      if Ascii.eqb c brace then Some line else from_brace rest
  end.

Fixpoint last_char (line : string) : string :=
  match line with
  | EmptyString => EmptyString
  | String c EmptyString => char1 c
  | String _ rest => last_char rest
  end.

Definition json_text (line : string) : string :=
  strip (match from_brace line with
         | Some rest => rest
         | None => last_char line
         end).

(** *** The text of a submission *)

(** [\s*] then a literal: the white space is passed over and the
    literal must follow. *)
Definition expect (literal : string) (s : string) : option string :=
  let s' := lstrip s in
  if startswith literal s' then Some (drop (len literal) s') else None.

(** The group of the pattern and the quote that closes it: characters
    are taken up to the first quote that no backslash escapes; a
    backslash takes the next character with it, which must not be a
    line feed.  [acc] is the group read so far, reversed. *)
Fixpoint quoted_body (escaped : bool) (acc : list ascii) (s : string)
  : option string :=
  match s with
  | EmptyString => None
  | String c rest =>
      if escaped then
        if Ascii.eqb c newline then None
        else quoted_body false (c :: acc) rest
      else if Ascii.eqb c dquote then Some (string_of_list_ascii (rev acc))
      else quoted_body (Ascii.eqb c backslash) (c :: acc) rest
  end.

(** The first match of the pattern of the submitted text in a line,
    [Text], a brace, [text:] and a quoted string, with optional white
    space between them: the group of the leftmost position where the
    pattern matches. *)
Definition text_at (s : string) : option string :=
  if startswith "Text" s then
    match expect (char1 brace) (drop 4 s) with
    | Some s1 =>
        match expect "text:" s1 with
        | Some s2 =>
            match expect (char1 dquote) s2 with
            | Some s3 => quoted_body false [] s3
            | None => None
            end
        | None => None
        end
    | None => None
    end
  else None.

Fixpoint find_text (line : string) : option string :=
  match text_at line with
  | Some group => Some group
  | None =>
      match line with
      | EmptyString => None
      | String _ rest => find_text rest
      end
  end.

(** [unescape_rust] *)
Definition nul : string := char1 (ascii_of_nat 0).

Definition unescape_rust (s : string) : string :=
  let s := replace (String backslash (char1 backslash)) nul s in
  let s := replace (String backslash "n") (char1 newline) s in
  let s := replace (String backslash "r") (char1 (ascii_of_nat 13)) s in
  let s := replace (String backslash "t") (char1 (ascii_of_nat 9)) s in
  let s := replace (String backslash (char1 dquote)) (char1 dquote) s in
  replace nul (char1 backslash) s.

(** The characters that the substitution keeps: ASCII letters, digits,
    the underscore, the space and the hyphen. *)
Definition keeps (c : ascii) : bool :=
  let n := nat_of_ascii c in
  (((48 <=? n) && (n <=? 57)) || ((65 <=? n) && (n <=? 90))
   || ((97 <=? n) && (n <=? 122)) || (n =? 95) || (n =? 32) || (n =? 45))%nat.

Fixpoint keep_word_chars (s : string) : string :=
  match s with
  | EmptyString => EmptyString
  | String c rest =>
      if keeps c then String c (keep_word_chars rest) else keep_word_chars rest
  end.

(** The text that a submission line offers as label. *)
Definition submission_text (line : string) : string :=
  let text := unescape_rust (match find_text line with
                             | Some group => group
                             | None => EmptyString
                             end) in
  let text := Render.after_request_marker text in
  let text := keep_word_chars text in
  strip (take 20 (join " " (firstn 5 (split_char " " (strip text))))).

(** *** The state of the loop *)

Record state : Type := {
  timestamp : datetime;
  prompt : option string;
  prev : value;
  poisoned : bool;
  files : LogStore.filesystem
}.

Definition set_poisoned (st : state) : state :=
  {| timestamp := timestamp st; prompt := prompt st; prev := prev st;
     poisoned := true; files := files st |}.

(** The sentinel of a malformed post. *)
Definition malformed : value := JDict [("ERROR", JStr "Malformed json")].

Section WithEnv.
Variable E : env.

(** [log]: the label becomes the empty text when none is set, and the
    entry goes to the document of the timestamp and the label. *)
Definition log (jj : value) (st : state) : state :=
  let label := match prompt st with
               | Some p => p
               | None => EmptyString
               end in
  {| timestamp := timestamp st;
     prompt := Some label;
     prev := prev st;
     poisoned := poisoned st;
     files := LogStore.write_entry E (files st)
                (LogStore.log_path E (timestamp st) label) jj |}.

(** The branch of a submission line. *)
Definition on_submission (line : string) (st : state) : state :=
  let text := submission_text line in
  {| timestamp := timestamp st;
     prompt := match prompt st with
               | Some p => Some p
               | None =>
                   Some (if (len text =? 0)%nat then EmptyString
                         else " - " ++ text)
               end;
     prev := prev st;
     poisoned := poisoned st;
     files := files st |}.

(** The branch of an outbound post. *)
Definition on_post (now : datetime) (line : string) (st : state)
  : result state :=
  post <- match json_loads E (json_text line) with
          | LoadsValue v => Ok v
          | LoadsDecodeError => Ok malformed
          | LoadsOtherError => Raise OtherError
          end ;;
  '(_, delta) <- Delta.calculate_json_delta (prev st) post ;;
  jj <- Render.render_delta E now delta ;;
  let st' := log jj st in
  Ok {| timestamp := timestamp st'; prompt := prompt st'; prev := post;
        poisoned := poisoned st'; files := files st' |}.

(** The branch of an inbound event. *)
Definition on_sse_event (now : datetime) (line : string) (st : state)
  : result state :=
  match json_loads E (json_text line) with
  | LoadsDecodeError => Ok st
  | LoadsOtherError => Raise OtherError
  | LoadsValue response =>
      tag <- Render.get_method response "type" (JStr EmptyString) ;;
      if negb (py_eq tag (JStr "response.completed")) then Ok st
      else
        jj <- Render.render_response E now response ;;
        Ok (log jj st)
  end.

(** The body of the [try] for one line; [now] is the reading of the
    clock while the line is processed.  No branch changes a variable
    before the point where it can raise. *)
Definition process_line (now : datetime) (line : string) (st : state)
  : result state :=
  if poisoned st then Ok st
  else if is_session_start line then
    Ok {| timestamp := now; prompt := None; prev := JNull;
          poisoned := poisoned st; files := files st |}
  else if is_submission line then Ok (on_submission line st)
  else if is_post line then on_post now line st
  else if is_sse_event line then on_sse_event now line st
  else Ok st.

(** One turn of the loop: [except Exception] sets the flag. *)
Definition step (st : state) (input : datetime * string) : state :=
  match process_line (fst input) (snd input) st with
  | Ok st' => st'
  | Raise _ => set_poisoned st
  end.

(** The loop over the lines of the stream, each with its clock reading. *)
Definition run (st : state) (inputs : list (datetime * string)) : state :=
  fold_left step inputs st.

(** The variables of [main] before the loop. *)
Definition initial_state (start : datetime) (disk : LogStore.filesystem)
  : state :=
  {| timestamp := start; prompt := None; prev := JNull;
     poisoned := false; files := disk |}.

End WithEnv.

(** *** Notions used to state the properties of the loop *)

(** The label that [log] uses and leaves behind. *)
Definition current_label (st : state) : string :=
  match prompt st with
  | Some p => p
  | None => EmptyString
  end.

(** The label that a submission line offers. *)
Definition offered_label (line : string) : string :=
  let text := submission_text line in
  if (len text =? 0)%nat then EmptyString else " - " ++ text.

(** The state after an entry [jj] was appended and [post] became the
    snapshot. *)
Definition after_post (E : env) (st : state) (post jj : value) : state :=
  {| timestamp := timestamp st;
     prompt := Some (current_label st);
     prev := post;
     poisoned := poisoned st;
     files := LogStore.write_entry E (files st)
                (LogStore.log_path E (timestamp st) (current_label st)) jj |}.

(** The claim C8 as it is written, at one session: the state [st] has no
    label and is not poisoned, the lines [before] hold no session
    boundary and no submission, and [input] is a submission line, the
    first of the session; the label after it is the one it offers. *)
Definition first_submission_assigns (E : env) (st : state)
    (before : list (datetime * string)) (input : datetime * string) : Prop :=
  prompt (run E st (before ++ [input])%list) = Some (offered_label (snd input)).

End Classifier.

(** * Sample inputs *)

Module Sample.
Import PyStr Json Classifier.

Definition sample : value :=
  JDict [("a", JList [JInt 1; JStr "s"; JFloat (S754_zero false)]);
         ("b", JNull)].

Definition quote : string := char1 dquote.

(** The JSON text of a mapping whose key [k] holds the empty list. *)
Definition text_k_empty : string := "{" ++ quote ++ "k" ++ quote ++ ": []}".

(** A stand-in for [json.loads] on the texts of the examples: it reads
    [text_k_empty], and the other text that the examples hand to it, a
    lone opening brace, is malformed. *)
Definition example_loads (s : string) : loads_result :=
  if String.eqb s text_k_empty then LoadsValue (JDict [("k", JList [])])
  else LoadsDecodeError.

Definition example_env : env :=
  {| json_loads := example_loads;
     float_repr := fun _ => "0.0";
     str_of_value := fun _ => "None";
     preamble := "<!--" ++ char1 newline;
     log_dir := "/home/user/codex-trace" |}.

Definition clock : datetime :=
  {| year := 2025; month := 3; day := 9; hour := 7; minute := 5; second := 0 |}.

Definition fresh : state := initial_state clock [].

(** Lines of the stream. *)
Definition boundary_line : string :=
  "INFO codex_core: Configuring session: model=gpt" ++ char1 newline.

Definition malformed_post_line : string :=
  "DEBUG POST to https://api.example/v1/responses: {" ++ char1 newline.

Definition malformed_event_line : string :=
  "TRACE SSE event: {" ++ char1 newline.

Definition emptied_post_line : string :=
  "DEBUG POST to https://api.example/v1/responses: " ++ text_k_empty
  ++ char1 newline.

Definition submission_line (text : string) : string :=
  "INFO Submission { id: 1, op: UserInput { items: [Text { text: "
  ++ quote ++ text ++ quote ++ " }] } }" ++ char1 newline.

(** A snapshot whose key [k] holds a list of one item. *)
Definition with_snapshot : state :=
  {| timestamp := clock; prompt := None;
     prev := JDict [("k", JList [JInt 1])];
     poisoned := false; files := [] |}.

End Sample.

(** * Notions used to state further properties *)

Module Notions.
Import PyStr Json Render Classifier.

Definition lt_char : ascii := ascii_of_nat 60.
Definition amp_char : ascii := ascii_of_nat 38.
Definition nul_char : ascii := ascii_of_nat 0.
Definition space_char : ascii := ascii_of_nat 32.
Definition slash_char : ascii := ascii_of_nat 47.
Definition hyphen_char : ascii := ascii_of_nat 45.



(** The entry that carries the value a normalizer was given. *)
Definition raw_json_node (v : value) : value :=
  JDict [("RENDER", JBool true); ("label", JStr "[raw json]"); ("content", v)].

(** A control character, below the space. *)
Definition is_control (c : ascii) : bool := (nat_of_ascii c <? 32)%nat.

(** A text without control characters. *)
Definition printable (s : string) : Prop :=
  forall c, In c (chars s) -> is_control c = false.

(** The two hyphens that [log] replaces, and what it writes for them. *)
Definition dashes : string := "--".
Definition dash_escape : string := String "-" (String backslash "u002d").

(** A rendered value [r] carries the value [v] that the normalizer was
    given: it is an open node whose last entry is the raw one. *)
Definition carries (title : string) (r v : value) : Prop :=
  exists entries,
    r = JDict [("RENDER", JBool true);
               ("label", JStr title);
               ("open", JBool true);
               ("content", JList (entries ++ [raw_json_node v])%list)].

(** A text without angle brackets. *)
Definition no_angle (s : string) : Prop :=
  ~ In lt_char (chars s) /\ ~ In LogStore.gt (chars s).

End Notions.

(** * Further sample data *)

Module MoreSample.
Import PyStr Json Render Classifier Sample Notions.

(** Two mappings: [a] is removed, [b] changes, [c] stays, [d] is added. *)
Definition before : dict := [("a", JInt 1); ("b", JInt 2); ("c", JInt 3)].
Definition after : dict := [("b", JInt 5); ("c", JInt 3); ("d", JInt 4)].
Definition before_after_delta : dict :=
  [("-a", JNull); ("+d", JInt 4); ("*b", JInt 5)].

(** Two mappings that are identical though their keys come in another
    order and [True] stands for [1]. *)
Definition flags : value := JDict [("a", JInt 1); ("b", JBool true)].
Definition flags_again : value := JDict [("b", JInt 1); ("a", JInt 1)].

(** A conversation that grows by one item. *)
Definition turn1 : dict := [("input", JList [JStr "hi"])].
Definition turn2 : dict := [("input", JList [JStr "hi"; JStr "there"])].
Definition turn_delta : dict := [("input+", JList [JStr "there"])].

(** A call of the shell and its rendering. *)
Definition call_item : value :=
  JDict [("type", JStr "function_call"); ("name", JStr "shell");
         ("arguments",
          JDict [("command", JList [JStr "bash"; JStr "-lc"; JStr "ls <dir>"])])].

Definition call_rendered : value :=
  JDict [("RENDER", JBool true);
         ("label", JStr "function_call: <b>shell(ls &lt;dir&gt;)</b>");
         ("content",
          JDict [("command", JList [JStr "bash"; JStr "-lc"; JStr "ls <dir>"])])].

(** A delta with instructions and its rendering. *)
Definition instructions_delta : value :=
  JDict [("instructions", JStr "be brief")].

Definition instructions_rendered : value :=
  JDict [("RENDER", JBool true); ("label", JStr "[07:05:00] POST");
         ("open", JBool true);
         ("content",
          JList [JDict [("RENDER", JBool true); ("label", JStr "instructions: ");
                        ("value", JStr "be brief... [1 lines]");
                        ("content", JStr "be brief")];
                 raw_json_node instructions_delta])].

(** A response without output and its rendering. *)
Definition empty_response : value :=
  JDict [("response", JDict [("output", JList [])])].

Definition empty_response_rendered : value :=
  JDict [("RENDER", JBool true);
         ("label", JStr "[07:05:00] response.completed");
         ("open", JBool true);
         ("content", JList [raw_json_node empty_response])].

(** One tool and the rendering of the list that holds it. *)
Definition shell_tool : value :=
  JDict [("name", JStr "shell"); ("parameters", JDict []);
         ("description", JStr "runs a command")].

Definition shell_tool_rendered : value :=
  JDict [("RENDER", JBool true); ("label", JStr "tools: ");
         ("value", JStr "[1 tools]");
         ("content",
          JList [JDict [("RENDER", JBool true); ("label", JStr "tool: shell");
                        ("content",
                         JDict [("description", JStr "runs a command")])]])].

(** A text of two lines. *)
Definition two_lines : value := JStr ("a" ++ char1 newline ++ "b").

(** A session that has its label. *)
Definition labelled : state :=
  {| timestamp := clock; prompt := Some " - hello"; prev := JNull;
     poisoned := false; files := [("notes.txt", "kept")] |}.

(** A session whose snapshot is the mapping of [emptied_post_line]. *)
Definition repeated : state :=
  {| timestamp := clock; prompt := Some EmptyString;
     prev := JDict [("k", JList [])];
     poisoned := false; files := [] |}.

End MoreSample.

(** * Properties of the dict operations *)

Module DictFacts.
Import Json.

Lemma lookup_In {A : Type} k (d : list (string * A)) :
  In k (keys d) -> exists v, lookup k d = Some v /\ In (k, v) d.
Proof.
  induction d as [|[k' v'] d IH]; cbn; [tauto|].
  intros Hin. destruct (String.eqb_spec k k') as [->|Hne].
  - exists v'. split; [reflexivity | now left].
  - destruct Hin as [Heq|Hin]; [congruence|].
    destruct (IH Hin) as [v [Hl Hi]]. exists v. split; [assumption | now right].
Qed.

Lemma lookup_Some_In {A : Type} k (d : list (string * A)) v :
  lookup k d = Some v -> In (k, v) d.
Proof.
  induction d as [|[k' v'] d IH]; cbn; [discriminate|].
  destruct (String.eqb_spec k k') as [->|Hne].
  - intros [= ->]. now left.
  - intros H. right. now apply IH.
Qed.

Lemma keys_dict_set {A : Type} (d : list (string * A)) k v x :
  In x (keys (dict_set d k v)) -> x = k \/ In x (keys d).
Proof.
  unfold keys. induction d as [|[k' v'] d IH]; cbn.
  - intuition congruence.
  - destruct (String.eqb_spec k k') as [->|Hne]; cbn; [tauto|].
    intros [H|H]; [tauto|]. destruct (IH H); tauto.
Qed.

Lemma lookup_dict_set_same {A : Type} (d : list (string * A)) k v :
  lookup k (dict_set d k v) = Some v.
Proof.
  induction d as [|[k' v'] d IH]; cbn.
  - now rewrite String.eqb_refl.
  - destruct (String.eqb k k') eqn:E; cbn; rewrite E; [reflexivity | exact IH].
Qed.

Lemma lookup_dict_set_other {A : Type} (d : list (string * A)) k k' v :
  k' <> k -> lookup k' (dict_set d k v) = lookup k' d.
Proof.
  intros Hne. induction d as [|[k0 v0] d IH]; cbn.
  - apply String.eqb_neq in Hne. now rewrite Hne.
  - destruct (String.eqb_spec k k0) as [->|Hk]; cbn.
    + apply String.eqb_neq in Hne. now rewrite Hne.
    + destruct (String.eqb k' k0); [reflexivity | exact IH].
Qed.

Lemma mem_lookup {A : Type} (d : list (string * A)) k :
  mem k d = match lookup k d with Some _ => true | None => false end.
Proof.
  induction d as [|[k' v'] d IH]; cbn; [reflexivity|].
  destruct (String.eqb k k'); [reflexivity | exact IH].
Qed.

Lemma mem_In_keys {A : Type} (d : list (string * A)) k :
  mem k d = true -> In k (keys d).
Proof.
  induction d as [|[k' v] d IH]; cbn; [discriminate|].
  destruct (String.eqb_spec k k') as [->|Hne]; [now left|].
  intros H. right. now apply IH.
Qed.

End DictFacts.

(** * Properties of the delta engine *)

Module DeltaFacts.
Import Json Delta DictFacts.

(** ** Equations of [calculate_json_delta] *)

Lemma calc_list_eq (prevl newl : list value) :
  calculate_json_delta (JList prevl) (JList newl)
  = list_branch (map calculate_json_delta prevl) newl.
Proof.
  reflexivity.
Qed.

Lemma calc_scalar_eq (prev new : value) :
  is_dict prev && is_dict new = false ->
  is_list prev && is_list new = false ->
  calculate_json_delta prev new = Ok (py_eq prev new, new).
Proof.
  destruct prev, new; cbn; intros; try reflexivity; discriminate.
Qed.

Lemma common_loop_ext rec1 rec2 newl ks delta :
  (forall k v, rec1 k v = rec2 k v) ->
  common_loop rec1 newl ks delta = common_loop rec2 newl ks delta.
Proof.
  intros Hext. revert delta.
  induction ks as [|k ks IH]; intros delta; [reflexivity|].
  cbn [common_loop]. destruct (lookup k newl) as [v|]; [|reflexivity].
  rewrite Hext. destruct (rec2 k v) as [[identical subdelta]|e]; [|reflexivity].
  cbn [bind]. destruct (record_change k identical subdelta delta); cbn [bind];
    [apply IH | reflexivity].
Qed.

Lemma calc_dict_eq (prevl newl : dict) :
  calculate_json_delta (JDict prevl) (JDict newl)
  = dict_branch (rec_call prevl) (keys prevl) newl.
Proof.
  cbn [calculate_json_delta]. unfold dict_branch.
  destruct (added_loop newl _ _) as [delta|e]; [|reflexivity].
  cbn [bind]. erewrite common_loop_ext; [reflexivity|].
  intros k v. unfold rec_call.
  induction prevl as [|[k' pv] l IH]; [reflexivity|].
  cbn [lookup]. destruct (String.eqb k k'); [reflexivity | apply IH].
Qed.

(** ** Key sets *)

Lemma in_keys_In k ks : in_keys k ks = true <-> In k ks.
Proof.
  unfold in_keys. rewrite existsb_exists. split.
  - intros [x [Hin Heq]]. apply String.eqb_eq in Heq. now subst.
  - intros Hin. exists k. split; [assumption | apply String.eqb_refl].
Qed.

Lemma insert_sorted_In k x l : In k (insert_sorted x l) <-> k = x \/ In k l.
Proof.
  induction l as [|y l IH]; cbn.
  - intuition congruence.
  - destruct (String.leb x y); cbn; [|rewrite IH]; intuition congruence.
Qed.

Lemma sorted_In k l : In k (sorted l) <-> In k l.
Proof.
  induction l as [|x l IH]; cbn; [tauto|].
  rewrite insert_sorted_In, IH. intuition congruence.
Qed.

Lemma sorted_difference_In k a b :
  In k (sorted_difference a b) <-> In k a /\ ~ In k b.
Proof.
  unfold sorted_difference.
  rewrite sorted_In, nodup_In, filter_In, negb_true_iff.
  rewrite <- in_keys_In with (ks := b).
  destruct (in_keys k b); intuition congruence.
Qed.

Lemma sorted_intersection_In k a b :
  In k (sorted_intersection a b) <-> In k a /\ In k b.
Proof.
  unfold sorted_intersection.
  now rewrite sorted_In, nodup_In, filter_In, in_keys_In.
Qed.

Lemma sorted_difference_self ks : sorted_difference ks ks = [].
Proof.
  destruct (sorted_difference ks ks) as [|k l] eqn:E; [reflexivity|].
  assert (H : In k (sorted_difference ks ks)) by (rewrite E; now left).
  apply sorted_difference_In in H. tauto.
Qed.

(** ** Comparing a value with itself *)

Lemma SFeqb_refl f : is_nan f = false -> SFeqb f f = true.
Proof.
  unfold SFeqb. destruct f as [s|s| |s m e]; cbn; try discriminate; intros _.
  - reflexivity.
  - now destruct s.
  - rewrite Z.compare_refl.
    assert (H : Pos.compare_cont Eq m m = Eq) by apply Pos.compare_refl.
    destruct s; now rewrite H.
Qed.

Lemma all_identical_self (items rest : list value) :
  Forall (fun x => exists d, calculate_json_delta x x = Ok (true, d)) items ->
  all_identical (map calculate_json_delta items) (items ++ rest) = Ok true.
Proof.
  induction 1 as [|x l [d Hx] _ IH]; cbn [map app all_identical].
  - now destruct rest.
  - rewrite Hx. cbn [bind]. exact IH.
Qed.

Lemma common_loop_identical rec newl ks delta :
  (forall k, In k ks ->
     exists v d, lookup k newl = Some v /\ rec k v = Ok (true, d)) ->
  common_loop rec newl ks delta = Ok delta.
Proof.
  induction ks as [|k ks IH]; intros H; [reflexivity|].
  cbn [common_loop].
  destruct (H k (or_introl eq_refl)) as [v [d [Hl Hr]]].
  rewrite Hl, Hr. cbn [bind record_change].
  apply IH. intros k' Hin. apply H. now right.
Qed.

Lemma calc_self (x : value) :
  json_value x -> calculate_json_delta x x = Ok (true, empty_like x).
Proof.
  unfold json_value.
  induction x as [ | b | n | f | s | items IH | entries IH ] using value_ind;
    intros Hx.
  - reflexivity.
  - cbn. now rewrite Bool.eqb_reflx.
  - cbn. now rewrite Z.eqb_refl.
  - cbn in *. rewrite SFeqb_refl; [reflexivity|]. now apply negb_true_iff.
  - cbn. now rewrite String.eqb_refl.
  - rewrite calc_list_eq. unfold list_branch.
    rewrite length_map, Nat.leb_refl.
    cbn [nan_free] in Hx. rewrite forallb_forall in Hx.
    rewrite <- (app_nil_r items) at 2.
    rewrite all_identical_self.
    + cbn [bind]. now rewrite Nat.eqb_refl.
    + rewrite Forall_forall in *. intros x Hin.
      exists (empty_like x). apply IH; auto.
  - rewrite calc_dict_eq. unfold dict_branch.
    rewrite sorted_difference_self. cbn [removed_loop fold_left added_loop bind].
    rewrite common_loop_identical; [reflexivity|].
    intros k Hin. apply sorted_intersection_In in Hin. destruct Hin as [Hin _].
    destruct (lookup_In k entries Hin) as [v [Hl Hi]].
    exists v, (empty_like v). split; [assumption|].
    unfold rec_call. rewrite Hl.
    cbn [nan_free] in Hx. rewrite forallb_forall in Hx.
    rewrite Forall_forall in IH.
    apply (IH (k, v) Hi). apply (Hx (k, v) Hi).
Qed.

Lemma calc_append (a b : list value) :
  Forall json_value a -> b <> [] ->
  calculate_json_delta (JList a) (JList (a ++ b))
  = Ok (false, JList (sentinel :: b)).
Proof.
  intros Ha Hb. rewrite calc_list_eq. unfold list_branch.
  rewrite length_map, length_app.
  assert (Hlen : 0 < List.length b) by (destruct b; [congruence | cbn; lia]).
  replace (List.length a <=? List.length a + List.length b)%nat with true
    by (symmetry; apply Nat.leb_le; lia).
  rewrite all_identical_self.
  - cbn [bind andb].
    replace (List.length a =? List.length a + List.length b)%nat with false
      by (symmetry; apply Nat.eqb_neq; lia).
    replace (List.length a <? List.length a + List.length b)%nat with true
      by (symmetry; apply Nat.ltb_lt; lia).
    now rewrite skipn_app, skipn_all, Nat.sub_diag.
  - rewrite Forall_forall in *. intros x Hin.
    exists (empty_like x). apply calc_self. now apply Ha.
Qed.

(** ** The shape of a returned delta *)

Lemma marker_keys_dict_set (delta : dict) k v :
  marker_key k -> Forall marker_key (keys delta) ->
  Forall marker_key (keys (dict_set delta k v)).
Proof.
  intros Hk Hd. rewrite Forall_forall in *. intros x Hx.
  apply keys_dict_set in Hx. destruct Hx as [->|Hx]; auto.
Qed.

Lemma removed_loop_keys ks delta :
  Forall marker_key (keys delta) ->
  Forall marker_key (keys (removed_loop ks delta)).
Proof.
  unfold removed_loop. revert delta.
  induction ks as [|k ks IH]; intros delta Hd; [exact Hd|].
  cbn [fold_left]. apply IH. apply marker_keys_dict_set; [|exact Hd].
  exists k. tauto.
Qed.

Lemma added_loop_keys newl ks delta delta' :
  added_loop newl ks delta = Ok delta' ->
  Forall marker_key (keys delta) -> Forall marker_key (keys delta').
Proof.
  revert delta. induction ks as [|k ks IH]; intros delta; cbn [added_loop].
  - now intros [= <-].
  - destruct (lookup k newl) as [v|]; [|discriminate].
    intros H Hd. apply (IH _ H). apply marker_keys_dict_set; [|exact Hd].
    exists k. tauto.
Qed.

Lemma record_change_keys k identical subdelta delta delta' :
  record_change k identical subdelta delta = Ok delta' ->
  Forall marker_key (keys delta) -> Forall marker_key (keys delta').
Proof.
  assert (Hc : marker_key (changed_key k)) by (exists k; tauto).
  assert (Ha : marker_key (appended_key k)) by (exists k; tauto).
  unfold record_change. destruct identical; [now intros [= <-]|].
  destruct subdelta as [ | | | | |[|first rest]| ];
    try (intros [= <-] Hd; now apply marker_keys_dict_set).
  destruct (py_eq first sentinel); intros [= <-] Hd;
    now apply marker_keys_dict_set.
Qed.

Lemma common_loop_keys rec newl ks delta delta' :
  common_loop rec newl ks delta = Ok delta' ->
  Forall marker_key (keys delta) -> Forall marker_key (keys delta').
Proof.
  revert delta. induction ks as [|k ks IH]; intros delta; cbn [common_loop].
  - now intros [= <-].
  - destruct (lookup k newl) as [v|]; [|discriminate].
    destruct (rec k v) as [[identical subdelta]|e]; [|discriminate].
    cbn [bind].
    destruct (record_change k identical subdelta delta) as [d1|e] eqn:Hr;
      [|discriminate].
    cbn [bind]. intros H Hd. apply (IH _ H).
    now apply (record_change_keys _ _ _ _ _ Hr).
Qed.

Lemma dict_branch_shape rec prev_keys newl b d :
  dict_branch rec prev_keys newl = Ok (b, d) ->
  exists delta, d = JDict delta /\ Forall marker_key (keys delta)
                /\ b = Nat.eqb (List.length delta) 0.
Proof.
  unfold dict_branch.
  destruct (added_loop newl _ _) as [d1|e] eqn:Ha; [|discriminate].
  cbn [bind].
  destruct (common_loop rec newl _ d1) as [d2|e] eqn:Hc; [|discriminate].
  cbn [bind]. intros [= <- <-]. exists d2. repeat split.
  apply (common_loop_keys _ _ _ _ _ Hc).
  apply (added_loop_keys _ _ _ _ Ha).
  apply removed_loop_keys. constructor.
Qed.

Lemma list_branch_shape recs newl b d :
  list_branch recs newl = Ok (b, d) -> list_result recs newl b d.
Proof.
  unfold list_branch, list_result.
  destruct (Nat.leb_spec (List.length recs) (List.length newl)) as [Hle|Hgt].
  - destruct (all_identical recs newl) as [[|]|e]; cbn [bind andb];
      [| intros [= <- <-]; right; right; auto | discriminate].
    destruct (Nat.eqb_spec (List.length recs) (List.length newl)) as [He|Hne].
    + intros [= <- <-]. left. auto.
    + destruct (Nat.ltb_spec (List.length recs) (List.length newl)); [|lia].
      intros [= <- <-]. right. left. auto.
  - intros [= <- <-]. right. right. auto.
Qed.

(** ** The only exception *)

Lemma added_loop_ok newl ks delta :
  (forall k, In k ks -> In k (keys newl)) ->
  exists delta', added_loop newl ks delta = Ok delta'.
Proof.
  revert delta. induction ks as [|k ks IH]; intros delta Hks; cbn [added_loop].
  - now exists delta.
  - destruct (lookup_In k newl (Hks k (or_introl eq_refl))) as [v [Hl _]].
    rewrite Hl. apply IH. intros k' Hin. apply Hks. now right.
Qed.

Lemma calc_raises_index_only (prev new : value) (e : exn) :
  calculate_json_delta prev new = Raise e -> e = IndexError.
Proof.
  revert new e.
  induction prev as [ | | | | | items IH | entries IH ] using value_ind;
    intros new e; try (destruct new; cbn; discriminate).
  - destruct new as [ | | | | | newl | ]; try (cbn; discriminate).
    rewrite calc_list_eq. unfold list_branch.
    destruct (List.length (map calculate_json_delta items) <=? List.length newl)%nat;
      [|discriminate].
    assert (Hall : forall r, all_identical (map calculate_json_delta items) newl
                             = Raise r -> r = IndexError).
    { clear e. revert newl. induction IH as [|x l Hx _ IHl]; intros newl r;
        cbn [map all_identical]; [discriminate|].
      destruct newl as [|y newl]; [discriminate|].
      destruct (calculate_json_delta x y) as [[identical sub]|e'] eqn:Hc.
      - cbn [bind]. destruct identical; [apply IHl | discriminate].
      - cbn [bind]. intros [= <-]. now apply (Hx y). }
    destruct (all_identical _ newl) as [all_true|r] eqn:Ha.
    + cbn [bind]. destruct (all_true && _); [discriminate|].
      destruct (all_true && _); discriminate.
    + cbn [bind]. intros [= <-]. now apply Hall.
  - destruct new as [ | | | | | | newl ]; try (cbn; discriminate).
    rewrite calc_dict_eq. unfold dict_branch.
    destruct (added_loop_ok newl (sorted_difference (keys newl) (keys entries))
                (removed_loop (sorted_difference (keys entries) (keys newl)) []))
      as [d1 Hd1].
    { intros k Hk. now apply sorted_difference_In in Hk. }
    rewrite Hd1. cbn [bind].
    assert (Hloop : forall ks delta r,
               (forall k, In k ks -> In k (keys entries) /\ In k (keys newl)) ->
               common_loop (rec_call entries) newl ks delta = Raise r ->
               r = IndexError).
    { induction ks as [|k ks IHks]; intros delta r Hks; cbn [common_loop];
        [discriminate|].
      destruct (Hks k (or_introl eq_refl)) as [Hp Hn].
      destruct (lookup_In k newl Hn) as [v [Hv _]]. rewrite Hv.
      destruct (lookup_In k entries Hp) as [pv [Hpv Hin]].
      unfold rec_call at 1. rewrite Hpv.
      destruct (calculate_json_delta pv v) as [[identical sub]|e'] eqn:Hc.
      - cbn [bind].
        destruct (record_change k identical sub delta) as [d2|e'] eqn:Hr.
        + cbn [bind]. apply IHks. intros k' Hk'. apply Hks. now right.
        + cbn [bind]. intros [= <-]. revert Hr. unfold record_change.
          destruct identical; [discriminate|].
          destruct sub as [ | | | | |[|first rest]| ]; try discriminate.
          * now intros [= <-].
          * destruct (py_eq first sentinel); discriminate.
      - cbn [bind]. intros [= <-].
        rewrite Forall_forall in IH. apply (IH (k, pv) Hin v). exact Hc. }
    destruct (common_loop _ newl _ d1) as [d2|r] eqn:Hc; [discriminate|].
    cbn [bind]. intros [= <-]. apply (Hloop _ _ _ (fun k Hk =>
      proj1 (sorted_intersection_In k _ _) Hk) Hc).
Qed.

(** ** An emptied list under a common key *)

Lemma rec_call_raises_index_only entries k v e :
  rec_call entries k v = Raise e -> In k (keys entries) -> e = IndexError.
Proof.
  unfold rec_call. intros H Hin.
  destruct (lookup_In k entries Hin) as [pv [Hpv _]]. rewrite Hpv in H.
  now apply calc_raises_index_only in H.
Qed.

Lemma record_change_raises_index_only k identical sub delta e :
  record_change k identical sub delta = Raise e -> e = IndexError.
Proof.
  unfold record_change. destruct identical; [discriminate|].
  destruct sub as [ | | | | |[|first rest]| ]; try discriminate.
  - now intros [= <-].
  - destruct (py_eq first sentinel); discriminate.
Qed.

Lemma calc_against_empty_list (pv : value) :
  pv <> JList [] ->
  calculate_json_delta pv (JList []) = Ok (false, JList []).
Proof.
  intros Hne. destruct pv as [ | | | | | [|x items] | ]; try reflexivity.
  congruence.
Qed.

Lemma common_loop_emptied entries newl k ks delta :
  In k ks ->
  (forall k', In k' ks -> In k' (keys entries) /\ In k' (keys newl)) ->
  lookup k newl = Some (JList []) ->
  rec_call entries k (JList []) = Ok (false, JList []) ->
  common_loop (rec_call entries) newl ks delta = Raise IndexError.
Proof.
  intros Hin Hks Hnew Hrec. revert delta Hin Hks.
  induction ks as [|k0 ks IH]; intros delta Hin Hks; [contradiction|].
  cbn [common_loop].
  destruct (Hks k0 (or_introl eq_refl)) as [Hp Hn].
  destruct (lookup_In k0 newl Hn) as [v [Hv _]]. rewrite Hv.
  destruct (rec_call entries k0 v) as [[identical sub]|e] eqn:Hc; cbn [bind].
  - destruct (record_change k0 identical sub delta) as [d2|e] eqn:Hr;
      cbn [bind].
    + destruct (String.eqb_spec k0 k) as [->|Hne].
      * rewrite Hnew in Hv. injection Hv as <-.
        rewrite Hrec in Hc. injection Hc as <- <-. discriminate.
      * apply IH.
        -- destruct Hin as [Heq|Hin]; [congruence | exact Hin].
        -- intros k' Hk'. apply Hks. now right.
    + now rewrite (record_change_raises_index_only _ _ _ _ _ Hr).
  - now rewrite (rec_call_raises_index_only _ _ _ _ Hc Hp).
Qed.

Lemma calc_emptied_raises (prevl newl : dict) (k : string) (pv : value) :
  lookup k prevl = Some pv ->
  lookup k newl = Some (JList []) ->
  pv <> JList [] ->
  calculate_json_delta (JDict prevl) (JDict newl) = Raise IndexError.
Proof.
  intros Hp Hn Hne. rewrite calc_dict_eq. unfold dict_branch.
  destruct (added_loop_ok newl (sorted_difference (keys newl) (keys prevl))
              (removed_loop (sorted_difference (keys prevl) (keys newl)) []))
    as [d1 Hd1].
  { intros k' Hk. now apply sorted_difference_In in Hk. }
  rewrite Hd1. cbn [bind].
  rewrite (common_loop_emptied prevl newl k); [reflexivity | | | exact Hn | ].
  - apply sorted_intersection_In. split.
    + apply lookup_Some_In in Hp. unfold keys. now apply (in_map fst) in Hp.
    + apply lookup_Some_In in Hn. unfold keys. now apply (in_map fst) in Hn.
  - intros k' Hk'. now apply sorted_intersection_In in Hk'.
  - unfold rec_call. rewrite Hp. now apply calc_against_empty_list.
Qed.

(** ** When an entry under an appended key can be trusted *)

Lemma ends_with_plus_appended k : ends_with_plus (appended_key k) = true.
Proof.
  unfold appended_key. induction k as [|c k IH]; [reflexivity|].
  cbn [append ends_with_plus]. destruct (k ++ "+") eqn:E; [|exact IH].
  destruct k; discriminate.
Qed.

Lemma ends_with_plus_cons c k :
  ends_with_plus (String c k) = true ->
  ends_with_plus k = true \/ (k = EmptyString /\ c = "+"%char).
Proof.
  cbn [ends_with_plus]. destruct k; [|now left].
  intros H. apply Ascii.eqb_eq in H. now right.
Qed.

Lemma appended_key_inj k1 k2 : appended_key k1 = appended_key k2 -> k1 = k2.
Proof.
  unfold appended_key. revert k2.
  induction k1 as [|c k1 IH]; intros [|c2 k2]; cbn [append]; intros H.
  - reflexivity.
  - injection H as _ H. destruct k2; discriminate.
  - injection H as _ H. destruct k1; discriminate.
  - injection H as -> H. f_equal. now apply IH.
Qed.

Lemma all_identical_Forall2 (prevl newl : list value) :
  all_identical (map calculate_json_delta prevl) newl = Ok true ->
  List.length prevl <= List.length newl ->
  Forall2 identical prevl (firstn (List.length prevl) newl).
Proof.
  revert newl. induction prevl as [|a prevl IH]; intros newl; cbn [map].
  - intros _ _. constructor.
  - destruct newl as [|b newl]; cbn [List.length]; [lia|].
    cbn [all_identical firstn].
    destruct (calculate_json_delta a b) as [[identical_ab sub]|e] eqn:Hc;
      cbn [bind]; [|discriminate].
    destruct identical_ab; [|discriminate].
    intros Hall Hlen. constructor.
    + now exists sub.
    + apply IH; [exact Hall | lia].
Qed.

(** What an entry under [k+] is meant to say of the values under [k]. *)
Definition grew_by (pv nv items : value) : Prop :=
  exists prevl newl,
    pv = JList prevl /\ nv = JList newl
    /\ List.length prevl < List.length newl
    /\ Forall2 identical prevl (firstn (List.length prevl) newl)
    /\ items = JList (skipn (List.length prevl) newl).

Lemma sentinel_delta_sound (pv nv first : value) (rest : list value) :
  calculate_json_delta pv nv = Ok (false, JList (first :: rest)) ->
  py_eq first sentinel = true ->
  (forall tail, nv <> JList (sentinel :: tail)) ->
  grew_by pv nv (JList rest).
Proof.
  intros Hc Hfirst Hnv.
  assert (Hf : first = sentinel).
  { destruct first; try discriminate.
    cbn in Hfirst. apply String.eqb_eq in Hfirst. now subst. }
  subst first.
  destruct (is_list pv && is_list nv) eqn:Hl;
    [|destruct (is_dict pv && is_dict nv) eqn:Hd].
  - destruct pv as [ | | | | | prevl | ]; try discriminate.
    destruct nv as [ | | | | | newl | ]; try discriminate.
    rewrite calc_list_eq in Hc. apply list_branch_shape in Hc.
    unfold list_result in Hc. rewrite !length_map in Hc.
    destruct Hc as [[Hb _]|[[_ [Hd [Hlen Hall]]]|[_ [Hd _]]]].
    + discriminate.
    + injection Hd as Hd. exists prevl, newl. repeat split; try assumption.
      * apply all_identical_Forall2; [exact Hall | lia].
      * now rewrite Hd.
    + injection Hd as Hd. exfalso. apply (Hnv rest). now rewrite Hd.
  - destruct pv as [ | | | | | | pd ]; try discriminate.
    destruct nv as [ | | | | | | nd ]; try discriminate.
    rewrite calc_dict_eq in Hc. apply dict_branch_shape in Hc.
    destruct Hc as [delta [Hdelta _]]. discriminate.
  - rewrite (calc_scalar_eq pv nv Hd Hl) in Hc. injection Hc as _ Hc.
    exfalso. apply (Hnv rest). exact Hc.
Qed.

Lemma lookup_removed_loop K ks delta :
  (forall k, In k ks -> removed_key k <> K) ->
  lookup K (removed_loop ks delta) = lookup K delta.
Proof.
  unfold removed_loop. revert delta.
  induction ks as [|k ks IH]; intros delta Hks; [reflexivity|].
  cbn [fold_left]. rewrite IH by (intros k' Hk'; apply Hks; now right).
  apply lookup_dict_set_other. intros ->. now apply (Hks k (or_introl eq_refl)).
Qed.

Lemma lookup_added_loop K newl ks delta delta' :
  (forall k, In k ks -> added_key k <> K) ->
  added_loop newl ks delta = Ok delta' ->
  lookup K delta' = lookup K delta.
Proof.
  revert delta. induction ks as [|k ks IH]; intros delta Hks; cbn [added_loop].
  - now intros [= <-].
  - destruct (lookup k newl) as [v|]; [|discriminate]. intros H.
    rewrite (IH _ (fun k' Hk' => Hks k' (or_intror Hk')) H).
    apply lookup_dict_set_other. intros ->. now apply (Hks k (or_introl eq_refl)).
Qed.

Lemma plain_key_not_appended (marker : ascii) (k' k : string) :
  ends_with_plus k' = false -> k' <> EmptyString \/ marker <> "+"%char ->
  String marker k' <> appended_key k.
Proof.
  intros Hplain Hne Heq.
  pose proof (ends_with_plus_appended k) as H. rewrite <- Heq in H.
  apply ends_with_plus_cons in H. destruct H as [H|[H1 H2]]; [congruence|].
  destruct Hne; congruence.
Qed.

(** An entry under [k+] of a returned delta can be trusted when no key
    of the two mappings ends with the plus sign and the new value under
    [k] does not start with the sentinel text. *)
Lemma appended_entry_sound (prevl newl delta : dict) (b : bool)
    (k : string) (pv nv items : value) :
  calculate_json_delta (JDict prevl) (JDict newl) = Ok (b, JDict delta) ->
  (forall k', In k' (keys prevl) \/ In k' (keys newl) ->
              ends_with_plus k' = false) ->
  lookup k prevl = Some pv ->
  lookup k newl = Some nv ->
  (forall tail, nv <> JList (sentinel :: tail)) ->
  lookup (appended_key k) delta = Some items ->
  grew_by pv nv items.
Proof.
  intros Hc Hplain Hpv Hnv Hstart Hitems.
  rewrite calc_dict_eq in Hc. unfold dict_branch in Hc.
  destruct (added_loop newl _ _) as [d1|e] eqn:Ha; [|discriminate].
  cbn [bind] in Hc.
  destruct (common_loop _ newl _ d1) as [d2|e] eqn:Hl; [|discriminate].
  cbn [bind] in Hc. injection Hc as _ <-.
  assert (Hkp : In k (keys prevl)).
  { apply lookup_Some_In in Hpv. unfold keys. now apply (in_map fst) in Hpv. }
  assert (Hremoved : forall k',
             In k' (sorted_difference (keys prevl) (keys newl)) ->
             removed_key k' <> appended_key k).
  { intros k' Hk'. apply sorted_difference_In in Hk'.
    apply plain_key_not_appended; [apply Hplain; tauto | right; discriminate]. }
  assert (Hadded : forall k',
             In k' (sorted_difference (keys newl) (keys prevl)) ->
             added_key k' <> appended_key k).
  { intros k' Hk'. apply sorted_difference_In in Hk'. destruct Hk' as [Hn Hp].
    destruct k' as [|c k''].
    - intros Heq. assert (Hk : k = EmptyString).
      { destruct k as [|a k]; [reflexivity|].
        unfold added_key, appended_key in Heq. cbn in Heq.
        injection Heq as _ Heq. destruct k; discriminate. }
      subst k. contradiction.
    - apply plain_key_not_appended; [apply Hplain; tauto | left; discriminate]. }
  assert (Hd1 : lookup (appended_key k) d1 = None).
  { rewrite (lookup_added_loop _ _ _ _ _ Hadded Ha).
    now rewrite lookup_removed_loop. }
  assert (Hinv : forall ks d d',
             (forall k', In k' ks -> In k' (keys prevl) /\ In k' (keys newl)) ->
             common_loop (rec_call prevl) newl ks d = Ok d' ->
             (forall it, lookup (appended_key k) d = Some it -> grew_by pv nv it) ->
             forall it, lookup (appended_key k) d' = Some it -> grew_by pv nv it).
  { induction ks as [|k0 ks IH]; intros d d' Hks; cbn [common_loop].
    - now intros [= <-].
    - destruct (Hks k0 (or_introl eq_refl)) as [Hp0 Hn0].
      destruct (lookup k0 newl) as [v0|] eqn:Hv0; [|discriminate].
      destruct (rec_call prevl k0 v0) as [[id0 sub0]|e] eqn:Hr0;
        cbn [bind]; [|discriminate].
      destruct (record_change k0 id0 sub0 d) as [dn|e] eqn:Hrc;
        cbn [bind]; [|discriminate].
      intros Hloop Hd. apply (IH dn d' (fun k' Hk' => Hks k' (or_intror Hk')) Hloop).
      intros it Hit. revert Hrc Hit. unfold record_change.
      assert (Hchanged : forall v it',
                 lookup (appended_key k) (dict_set d (changed_key k0) v) = Some it' ->
                 grew_by pv nv it').
      { intros v it'. rewrite lookup_dict_set_other; [apply Hd|].
        intros Heq. symmetry in Heq. revert Heq.
        apply plain_key_not_appended; [now apply Hplain; left | right; discriminate]. }
      destruct id0; [intros [= <-]; apply Hd|].
      destruct sub0 as [ | | | | |[|first rest]| ];
        try (intros [= <-]; apply Hchanged).
      destruct (py_eq first sentinel) eqn:Hfirst;
        [|intros [= <-]; apply Hchanged].
      intros [= <-]. destruct (String.eqb_spec k0 k) as [->|Hne].
      + rewrite lookup_dict_set_same. intros [= <-].
        rewrite Hnv in Hv0. injection Hv0 as <-.
        unfold rec_call in Hr0. rewrite Hpv in Hr0.
        now apply (sentinel_delta_sound pv nv first rest).
      + rewrite lookup_dict_set_other; [apply Hd|].
        intros Heq. apply appended_key_inj in Heq. congruence. }
  apply (Hinv _ _ _ (fun k' Hk' => proj1 (sorted_intersection_In k' _ _) Hk') Hl);
    [|exact Hitems].
  intros it Hit. rewrite Hd1 in Hit. discriminate.
Qed.

(** ** The claims on the delta engine *)

(** C1, amended.  Whenever [calculate_json_delta] returns, the delta has
    the outer shape of [new]: for two mappings it is a mapping whose keys
    all have one of the four marker forms; for two sequences it is the
    empty sequence when they are identical, the sentinel followed by the
    extra items when every compared pair is identical and [new] is
    longer, and the new sequence as it is otherwise; in every other case
    it is the value [new] itself. *)
Theorem returned_delta_shape (prev new : value) (b : bool) (d : value) :
  calculate_json_delta prev new = Ok (b, d) ->
  match prev, new with
  | JDict _, JDict _ =>
      exists delta, d = JDict delta /\ Forall marker_key (keys delta)
  | JList prevl, JList newl =>
      list_result (map calculate_json_delta prevl) newl b d
  | _, _ => d = new
  end.
Proof.
  destruct prev, new; try (cbn; now intros [= _ <-]).
  - rewrite calc_list_eq. apply list_branch_shape.
  - rewrite calc_dict_eq. intros H.
    destruct (dict_branch_shape _ _ _ _ _ H) as [delta [Hd [Hk _]]].
    now exists delta.
Qed.

(** C3.  An entry under the key [k+] is meant to say that the sequence
    under [k] grew by the listed items and that no earlier item changed.
    The engine writes such an entry whenever the child delta is a list
    whose first item is the sentinel text, and a sequence that was
    replaced is returned as it is: when the new sequence starts with that
    text, the entry is written although the earlier items changed, the
    sequence shrank, or the previous value was no sequence.  (Where the
    new sequence does not start with that text, the entry can be
    trusted: [appended_entry_sound].) *)
Theorem appended_key_without_append :
  calculate_json_delta (JDict [("k", JList [JInt 1])])
                       (JDict [("k", JList [JStr "..."; JInt 2])])
  = Ok (false, JDict [(appended_key "k", JList [JInt 2])])
  /\ JList [JStr "..."; JInt 2] <> JList ([JInt 1] ++ [JInt 2])
  /\ calculate_json_delta (JDict [("k", JList [JInt 1; JInt 2; JInt 3])])
                          (JDict [("k", JList [JStr "..."])])
     = Ok (false, JDict [(appended_key "k", JList [])])
  /\ calculate_json_delta (JDict [("k", JInt 5)])
                          (JDict [("k", JList [JStr "..."; JInt 2])])
     = Ok (false, JDict [(appended_key "k", JList [JInt 2])]).
Proof.
  repeat split; try reflexivity. discriminate.
Qed.

(** C4.  Comparing a JSON value with itself gives [identical = true] and
    the empty delta of its kind: the empty mapping for a mapping, the
    empty sequence for a sequence, the value itself otherwise.  (A JSON
    value holds no NaN; see [json_value].) *)
Theorem delta_of_equal_values (x : value) :
  json_value x ->
  calculate_json_delta x x = Ok (true, empty_like x).
Proof.
  exact (calc_self x).
Qed.

(** C5.  For a sequence [a] of JSON values and a non-empty sequence [b]
    of any values, the delta from [a] to [a ++ b] is not identical and is
    the sentinel followed by exactly the items of [b]. *)
Theorem append_detection (a b : list value) :
  Forall json_value a -> b <> [] ->
  calculate_json_delta (JList a) (JList (a ++ b))
  = Ok (false, JList (sentinel :: b)).
Proof.
  exact (calc_append a b).
Qed.

(** C10.  [calculate_json_delta] is not total: when a key of both
    mappings holds the empty list in [new] and anything else in [prev],
    a longer list for one, the child delta is the empty list, reading
    its first item raises [IndexError], and no pair is returned. *)
Theorem emptied_list_raises (prevl newl : dict) (k : string) (pv : value) :
  lookup k prevl = Some pv ->
  lookup k newl = Some (JList []) ->
  pv <> JList [] ->
  calculate_json_delta (JDict prevl) (JDict newl) = Raise IndexError.
Proof.
  exact (calc_emptied_raises prevl newl k pv).
Qed.

End DeltaFacts.

(** * Properties of the log store *)

Module LogStoreFacts.
Import PyStr Json LogStore DictFacts.

(** ** Characters of a text *)

Lemma chars_app (a b : string) : chars (a ++ b) = (chars a ++ chars b)%list.
Proof.
  induction a as [|c a IH]; [reflexivity|].
  cbn. unfold chars in IH. now rewrite IH.
Qed.

Lemma startswith_chars (p s : string) (c : ascii) :
  startswith p s = true -> In c (chars p) -> In c (chars s).
Proof.
  unfold startswith. revert s.
  induction p as [|a p IH]; intros s Hp Hin; [contradiction|].
  destruct s as [|b s]; cbn in Hp; [discriminate|].
  destruct (ascii_dec a b) as [->|]; [|discriminate].
  cbn in Hin |- *. destruct Hin as [->|Hin]; [now left|].
  right. now apply IH.
Qed.

Lemma contains_chars (needle s : string) (c : ascii) :
  contains needle s = true -> In c (chars needle) -> In c (chars s).
Proof.
  induction s as [|b s IH]; cbn [contains]; intros H Hin.
  - rewrite orb_false_r in H. now apply startswith_chars with (p := needle).
  - apply orb_true_iff in H. destruct H as [H|H].
    + now apply startswith_chars with (p := needle).
    + cbn. right. now apply IH.
Qed.

Lemma absent_not_contained (needle s : string) (c : ascii) :
  In c (chars needle) -> ~ In c (chars s) -> contains needle s = false.
Proof.
  intros Hin Hs. destruct (contains needle s) eqn:E; [|reflexivity].
  exfalso. apply Hs. now apply contains_chars with (needle := needle).
Qed.

(** ** [replace] *)

(** A replacement brings in only characters of the new text. *)
Lemma replace_from_chars old new skip s c :
  In c (chars (replace_from old new skip s)) ->
  In c (chars new) \/ In c (chars s).
Proof.
  revert skip. induction s as [|a s IH]; intros skip; cbn [replace_from].
  - now right.
  - destruct skip as [|n].
    + destruct (startswith old (String a s)).
      * rewrite chars_app, in_app_iff. intros [H|H]; [now left|].
        destruct (IH _ H) as [H'|H']; [now left | right; now right].
      * cbn. intros [H|H]; [right; now left|].
        destruct (IH _ H) as [H'|H']; [now left | right; now right].
    + intros H. destruct (IH _ H) as [H'|H']; [now left | right; now right].
Qed.

(** Replacing every occurrence of one character removes it, when the
    new text does not hold it. *)
Lemma replace_from_char_absent c new skip s :
  ~ In c (chars new) ->
  ~ In c (chars (replace_from (char1 c) new skip s)).
Proof.
  intros Hnew. revert skip.
  induction s as [|a s IH]; intros skip; cbn [replace_from]; [tauto|].
  destruct skip as [|n]; [|apply IH].
  unfold startswith at 1, char1 at 1. cbn [String.prefix].
  destruct (ascii_dec c a) as [->|Hne].
  - replace (String.prefix EmptyString s) with true by now destruct s.
    rewrite chars_app, in_app_iff. intros [H|H]; [tauto|]. now apply IH in H.
  - cbn. intros [H|H]; [congruence|]. now apply IH in H.
Qed.

(** ** The text of a log entry *)

Lemma neutralize_no_gt (s : string) : ~ In gt (chars (neutralize s)).
Proof.
  unfold neutralize, replace. intros H.
  apply replace_from_chars in H. destruct H as [H|H].
  - cbn in H. repeat (destruct H as [H|H]; [discriminate|]). exact H.
  - revert H. apply (replace_from_char_absent gt).
    cbn. intros H. repeat (destruct H as [H|H]; [discriminate|]). exact H.
Qed.

(** ** The store *)

Lemma write_entry_lookup (E : env) fs path jj :
  lookup path (write_entry E fs path jj)
  = Some (match lookup path fs with
          | Some old => old
          | None => preamble E
          end ++ log_line E jj ++ char1 newline).
Proof.
  unfold write_entry. rewrite mem_lookup.
  destruct (lookup path fs) as [old|] eqn:Hl; cbn [negb].
  - unfold append_text. rewrite Hl. apply lookup_dict_set_same.
  - unfold append_text at 2. rewrite Hl.
    unfold append_text. rewrite lookup_dict_set_same.
    apply lookup_dict_set_same.
Qed.

Lemma write_entry_other (E : env) fs path jj path' :
  path' <> path ->
  lookup path' (write_entry E fs path jj) = lookup path' fs.
Proof.
  intros Hne. unfold write_entry, append_text.
  destruct (negb (mem path fs));
    repeat match goal with
           | |- context [match lookup ?p ?d with _ => _ end] =>
               destruct (lookup p d)
           end;
    repeat rewrite lookup_dict_set_other by assumption; reflexivity.
Qed.

(** C2.  Every call of the append operation of the log store adds one
    line to the document of its path, after the text that was there (the
    page shell for a new document), and leaves the other documents as
    they were; that line, the JSON text of the value after
    neutralization, holds no [>] at all, escaped or not, and so does not
    hold the sequence that closes the comment. *)
Theorem appended_line_is_neutral (E : env) (fs : filesystem)
    (path : string) (jj : value) :
  lookup path (write_entry E fs path jj)
  = Some (match lookup path fs with
          | Some old => old
          | None => preamble E
          end ++ log_line E jj ++ char1 newline)
  /\ (forall path', path' <> path ->
        lookup path' (write_entry E fs path jj) = lookup path' fs)
  /\ contains "-->" (log_line E jj) = false
  /\ contains ">" (log_line E jj) = false
  /\ ~ In gt (chars (log_line E jj)).
Proof.
  split; [apply write_entry_lookup|].
  split; [intros; now apply write_entry_other|].
  pose proof (neutralize_no_gt (dumps E jj)) as H.
  repeat split.
  - apply absent_not_contained with (c := gt); [cbn; tauto | exact H].
  - apply absent_not_contained with (c := gt); [now left | exact H].
  - exact H.
Qed.

End LogStoreFacts.

(** * Properties of the normalizer *)

Module RenderFacts.
Import PyStr Json Render.

Lemma render_delta_ok (E : env) (now : datetime) (delta : value) :
  exists r, render_delta E now delta = Ok r.
Proof.
  unfold render_delta. destruct delta; try (eexists; reflexivity).
  destruct (no_known_key entries); [eexists; reflexivity|].
  destruct (render_delta_body E now entries); eexists; reflexivity.
Qed.

Lemma render_response_ok (E : env) (now : datetime) (response : value) :
  exists r, render_response E now response = Ok r.
Proof.
  unfold render_response.
  destruct (render_response_body E now response); eexists; reflexivity.
Qed.

Lemma render_delta_passes (E : env) (now : datetime) (delta : value) :
  (forall d, delta = JDict d ->
     mem "instructions" d = false /\ mem "tools" d = false
     /\ mem "input" d = false /\ mem "input+" d = false) ->
  render_delta E now delta = Ok delta.
Proof.
  intros H. unfold render_delta. destruct delta; try reflexivity.
  destruct (H entries eq_refl) as [H1 [H2 [H3 H4]]].
  unfold no_known_key. now rewrite H1, H2, H3, H4.
Qed.

(** C9.  [render_delta] and [render_response] never raise: each returns
    either what its body built or, when the body raised, the value it
    was given, unmodified; and [render_delta] returns its input as it is
    whenever the input is not a mapping that holds one of the keys
    [instructions], [tools], [input] and [input+]. *)
Theorem normalizers_never_raise (E : env) (now : datetime) (v : value) :
  (exists r, render_delta E now v = Ok r
             /\ (r = v \/ exists d, v = JDict d
                                   /\ render_delta_body E now d = Ok r))
  /\ (forall d e, v = JDict d -> render_delta_body E now d = Raise e ->
                  render_delta E now v = Ok v)
  /\ ((forall d, v = JDict d ->
         mem "instructions" d = false /\ mem "tools" d = false
         /\ mem "input" d = false /\ mem "input+" d = false) ->
      render_delta E now v = Ok v)
  /\ (exists r, render_response E now v = Ok r
                /\ (r = v \/ render_response_body E now v = Ok r))
  /\ (forall e, render_response_body E now v = Raise e ->
                render_response E now v = Ok v).
Proof.
  repeat split.
  - unfold render_delta. destruct v; try (eexists; split; [reflexivity | now left]).
    destruct (no_known_key entries); [eexists; split; [reflexivity | now left]|].
    destruct (render_delta_body E now entries) as [r|e] eqn:Hb.
    + exists r. split; [reflexivity|]. right. now exists entries.
    + eexists. split; [reflexivity | now left].
  - intros d e -> Hb. unfold render_delta.
    destruct (no_known_key d); [reflexivity|]. now rewrite Hb.
  - apply render_delta_passes.
  - unfold render_response.
    destruct (render_response_body E now v) as [r|e].
    + exists r. split; [reflexivity | now right].
    + eexists. split; [reflexivity | now left].
  - intros e Hb. unfold render_response. now rewrite Hb.
Qed.

End RenderFacts.

(** * Properties of the stream classifier *)

Module ClassifierFacts.
Import PyStr Json Delta Render LogStore Classifier DictFacts DeltaFacts.

(** ** The delta against the sentinel of a malformed post *)

Lemma all_marked_dict_set (delta : dict) k v :
  prefix_marked k = true -> all_marked delta -> all_marked (dict_set delta k v).
Proof.
  unfold all_marked. intros Hk Hd. rewrite Forall_forall in *. intros x Hx.
  apply keys_dict_set in Hx. destruct Hx as [->|Hx]; auto.
Qed.

Lemma removed_loop_marked ks delta :
  all_marked delta -> all_marked (removed_loop ks delta).
Proof.
  unfold removed_loop. revert delta.
  induction ks as [|k ks IH]; intros delta Hd; [exact Hd|].
  cbn [fold_left]. apply IH. now apply all_marked_dict_set.
Qed.

Lemma added_loop_marked newl ks delta :
  (forall k, In k ks -> In k (keys newl)) -> all_marked delta ->
  exists delta', added_loop newl ks delta = Ok delta' /\ all_marked delta'.
Proof.
  revert delta. induction ks as [|k ks IH]; intros delta Hks Hd; cbn [added_loop].
  - now exists delta.
  - destruct (lookup_In k newl (Hks k (or_introl eq_refl))) as [v [Hl _]].
    rewrite Hl. apply IH.
    + intros k' Hin. apply Hks. now right.
    + now apply all_marked_dict_set.
Qed.

Lemma common_loop_flat prevl newl ks delta :
  flat newl ->
  (forall k, In k ks -> In k (keys prevl) /\ In k (keys newl)) ->
  all_marked delta ->
  exists delta',
    common_loop (rec_call prevl) newl ks delta = Ok delta' /\ all_marked delta'.
Proof.
  intros Hflat. revert delta.
  induction ks as [|k ks IH]; intros delta Hks Hd; cbn [common_loop].
  - now exists delta.
  - destruct (Hks k (or_introl eq_refl)) as [Hp Hn].
    destruct (lookup_In k newl Hn) as [v [Hv Hin]]. rewrite Hv.
    destruct (lookup_In k prevl Hp) as [pv [Hpv _]].
    destruct (Hflat k v Hin) as [Hl Hdict].
    unfold rec_call at 1. rewrite Hpv.
    rewrite calc_scalar_eq by (rewrite ?Hl, ?Hdict; apply andb_false_r).
    cbn [bind].
    assert (Hnext : forall d, all_marked d ->
              exists delta', common_loop (rec_call prevl) newl ks d = Ok delta'
                             /\ all_marked delta').
    { intros d Hmd. apply IH; [|exact Hmd].
      intros k' Hin'. apply Hks. now right. }
    unfold record_change. destruct (py_eq pv v); cbn [bind]; [now apply Hnext|].
    destruct v; try discriminate; cbn [bind];
      apply Hnext; now apply all_marked_dict_set.
Qed.

Lemma calc_flat (prevl newl : dict) :
  flat newl ->
  exists b delta,
    calculate_json_delta (JDict prevl) (JDict newl) = Ok (b, JDict delta)
    /\ all_marked delta.
Proof.
  intros Hflat. rewrite calc_dict_eq. unfold dict_branch.
  destruct (added_loop_marked newl (sorted_difference (keys newl) (keys prevl))
              (removed_loop (sorted_difference (keys prevl) (keys newl)) []))
    as [d1 [Hd1 Hm1]].
  { intros k Hk. now apply sorted_difference_In in Hk. }
  { apply removed_loop_marked. constructor. }
  rewrite Hd1. cbn [bind].
  destruct (common_loop_flat prevl newl
              (sorted_intersection (keys prevl) (keys newl)) d1 Hflat)
    as [d2 [Hd2 Hm2]].
  { intros k Hk. now apply sorted_intersection_In in Hk. }
  { exact Hm1. }
  rewrite Hd2. cbn [bind]. eexists. exists d2. split; [reflexivity | exact Hm2].
Qed.

Lemma marked_not_mem (delta : dict) k :
  all_marked delta -> prefix_marked k = false -> mem k delta = false.
Proof.
  intros Hm Hk. destruct (mem k delta) eqn:E; [|reflexivity].
  apply mem_In_keys in E. unfold all_marked in Hm. rewrite Forall_forall in Hm.
  apply Hm in E. congruence.
Qed.

(** The delta from any snapshot to the sentinel is returned, and the
    normalizer passes it through. *)
Lemma delta_to_malformed (E : env) (now : datetime) (snapshot : value) :
  exists b delta,
    calculate_json_delta snapshot malformed = Ok (b, delta)
    /\ render_delta E now delta = Ok delta.
Proof.
  destruct snapshot as [ | | | | | | prevl ];
    try (exists false, malformed; split; reflexivity).
  destruct (calc_flat prevl [("ERROR", JStr "Malformed json")]) as [b [delta [Hc Hm]]].
  { intros k v [[= <- <-]|[]]. split; reflexivity. }
  exists b, (JDict delta). split; [exact Hc|].
  apply RenderFacts.render_delta_passes. intros d [= <-].
  repeat split; now apply marked_not_mem.
Qed.

(** ** One line *)

Lemma step_post (E : env) (now : datetime) (line : string) (st : state)
    (post delta jj : value) (b : bool) :
  poisoned st = false -> is_session_start line = false ->
  is_submission line = false -> is_post line = true ->
  match json_loads E (json_text line) with
  | LoadsValue v => v = post
  | LoadsDecodeError => malformed = post
  | LoadsOtherError => False
  end ->
  calculate_json_delta (prev st) post = Ok (b, delta) ->
  render_delta E now delta = Ok jj ->
  step E st (now, line) = after_post E st post jj.
Proof.
  intros Hp Hs Hsub Hpost Hloads Hc Hr.
  unfold step, process_line. cbn [fst snd]. rewrite Hp, Hs, Hsub, Hpost.
  unfold on_post.
  destruct (json_loads E (json_text line)); [subst v | subst post | contradiction];
    cbn [bind]; rewrite Hc; cbn [bind]; rewrite Hr; reflexivity.
Qed.

Lemma step_poisoned (E : env) (st : state) (input : datetime * string) :
  poisoned st = true -> step E st input = st.
Proof.
  intros Hp. unfold step, process_line. now rewrite Hp.
Qed.

Lemma run_poisoned (E : env) (st : state) (inputs : list (datetime * string)) :
  poisoned st = true -> run E st inputs = st.
Proof.
  intros Hp. unfold run. induction inputs as [|input rest IH]; [reflexivity|].
  cbn [fold_left]. now rewrite step_poisoned.
Qed.

Lemma step_keeps_label (E : env) (st : state) (input : datetime * string)
    (p : string) :
  prompt st = Some p -> is_session_start (snd input) = false ->
  prompt (step E st input) = Some p.
Proof.
  intros Hl Hs. unfold step, process_line.
  destruct (poisoned st); [exact Hl|]. rewrite Hs.
  destruct (is_submission (snd input)).
  { cbn. now rewrite Hl. }
  destruct (is_post (snd input)).
  { unfold on_post.
    destruct (match json_loads E (json_text (snd input)) with
              | LoadsValue v => Ok v
              | LoadsDecodeError => Ok malformed
              | LoadsOtherError => Raise OtherError
              end) as [post|e]; cbn [bind]; [|exact Hl].
    destruct (calculate_json_delta (prev st) post) as [[b delta]|e];
      cbn [bind]; [|exact Hl].
    destruct (render_delta E (fst input) delta) as [jj|e]; cbn [bind];
      [|exact Hl].
    cbn. now rewrite Hl. }
  destruct (is_sse_event (snd input)); [|exact Hl].
  unfold on_sse_event.
  destruct (json_loads E (json_text (snd input))) as [response| |];
    try exact Hl.
  destruct (get_method response "type" (JStr EmptyString)) as [tag|e];
    cbn [bind]; [|exact Hl].
  destruct (negb (py_eq tag (JStr "response.completed"))); [exact Hl|].
  destruct (render_response E (fst input) response) as [jj|e]; cbn [bind];
    [|exact Hl].
  cbn. now rewrite Hl.
Qed.

Lemma run_keeps_label (E : env) (inputs : list (datetime * string)) :
  forall (st : state) (p : string),
    prompt st = Some p ->
    Forall (fun input => is_session_start (snd input) = false) inputs ->
    prompt (run E st inputs) = Some p.
Proof.
  unfold run. induction inputs as [|input rest IH]; intros st p Hl Hall;
    [exact Hl|].
  cbn [fold_left]. inversion Hall as [|? ? Hs Hrest]; subst.
  apply IH; [|exact Hrest]. now apply step_keeps_label.
Qed.

(** ** The claims on the classifier *)

(** C6.  A line that is recognized while the session is not poisoned and
    whose JSON text is malformed: if it is an outbound post, the sentinel
    error object stands for the post, the delta from the snapshot to it
    is computed without an exception, exactly one line is appended to the
    document of the session, the sentinel is the new snapshot, and the
    delta of the next post is computed against it; if it is an inbound
    event, the line changes nothing. *)
Theorem malformed_json_lines (E : env) (now : datetime) (line : string)
    (st : state) :
  poisoned st = false ->
  is_session_start line = false ->
  is_submission line = false ->
  json_loads E (json_text line) = LoadsDecodeError ->
  (is_post line = true ->
   exists identical delta,
     let st' := step E st (now, line) in
     let path := log_path E (timestamp st) (current_label st) in
     calculate_json_delta (prev st) malformed = Ok (identical, delta)
     /\ st' = after_post E st malformed delta
     /\ prev st' = malformed
     /\ poisoned st' = false
     /\ lookup path (files st')
        = Some (match lookup path (files st) with
                | Some old => old
                | None => preamble E
                end ++ log_line E delta ++ char1 newline)
     /\ (forall path', path' <> path ->
           lookup path' (files st') = lookup path' (files st))
     /\ (forall now2 line2 post2 b2 delta2,
           is_session_start line2 = false -> is_submission line2 = false ->
           is_post line2 = true ->
           json_loads E (json_text line2) = LoadsValue post2 ->
           calculate_json_delta malformed post2 = Ok (b2, delta2) ->
           exists jj, render_delta E now2 delta2 = Ok jj
                      /\ step E st' (now2, line2) = after_post E st' post2 jj))
  /\ (is_post line = false -> is_sse_event line = true ->
      step E st (now, line) = st).
Proof.
  intros Hp Hs Hsub Hloads. split.
  - intros Hpost.
    destruct (delta_to_malformed E now (prev st)) as [b [delta [Hc Hr]]].
    exists b, delta. cbn zeta.
    assert (Hstep : step E st (now, line) = after_post E st malformed delta).
    { apply (step_post E now line st malformed delta delta b); try assumption.
      now rewrite Hloads. }
    rewrite Hstep. repeat split.
    + exact Hc.
    + exact Hp.
    + apply LogStoreFacts.write_entry_lookup.
    + intros path' Hne. now apply LogStoreFacts.write_entry_other.
    + intros now2 line2 post2 b2 delta2 Hs2 Hsub2 Hpost2 Hloads2 Hc2.
      destruct (RenderFacts.render_delta_ok E now2 delta2) as [jj Hjj].
      exists jj. split; [exact Hjj|].
      apply (step_post E now2 line2 _ post2 delta2 jj b2); try assumption.
      now rewrite Hloads2.
  - intros Hpost Hsse. unfold step, process_line. cbn [fst snd].
    rewrite Hp, Hs, Hsub, Hpost, Hsse. unfold on_sse_event. now rewrite Hloads.
Qed.

(** C7.  When the processing of a line raises, the loop sets the
    poisoned flag and changes nothing else, so no entry is logged for
    that line; from then on every line leaves the whole state as it is,
    a session-boundary line included: the flag stays set to the end of
    the stream and nothing more is logged. *)
Theorem poison_is_sticky (E : env) (st : state) (input : datetime * string)
    (e : exn) :
  process_line E (fst input) (snd input) st = Raise e ->
  let st' := step E st input in
  st' = set_poisoned st
  /\ poisoned st' = true
  /\ files st' = files st
  /\ (forall rest, run E st' rest = st')
  /\ (forall now line, is_session_start line = true ->
                       step E st' (now, line) = st').
Proof.
  intros Hraise. cbn zeta.
  assert (Hstep : step E st input = set_poisoned st).
  { unfold step. now rewrite Hraise. }
  rewrite Hstep.
  split; [reflexivity|]. split; [reflexivity|]. split; [reflexivity|]. split.
  - intros rest. now apply run_poisoned.
  - intros now line _. now apply step_poisoned.
Qed.

(** C8, amended.  A recognized submission line assigns its label (the
    empty one allowed) only when the session has none yet, and changes
    nothing else; the first append to the log of a session without a
    label assigns the empty label; once a label is assigned, no line of
    the same session changes it, so it is assigned at most once. *)
Theorem label_assigned_once (E : env) (st : state) (now : datetime)
    (line : string) (rest : list (datetime * string)) :
  poisoned st = false ->
  is_session_start line = false ->
  is_submission line = true ->
  Forall (fun input => is_session_start (snd input) = false) rest ->
  let st' := step E st (now, line) in
  prompt st' = Some (match prompt st with
                     | Some p => p
                     | None => offered_label line
                     end)
  /\ timestamp st' = timestamp st /\ prev st' = prev st
  /\ files st' = files st /\ poisoned st' = false
  /\ prompt (run E st' rest) = prompt st'
  /\ (forall jj, prompt st = None -> prompt (log E jj st) = Some EmptyString)
  /\ (forall jj p, prompt st = Some p -> prompt (log E jj st) = Some p).
Proof.
  intros Hp Hs Hsub Hrest. cbn zeta.
  assert (Hstep : step E st (now, line) = on_submission line st).
  { unfold step, process_line. cbn [fst snd]. now rewrite Hp, Hs, Hsub. }
  rewrite Hstep.
  assert (Hl : prompt (on_submission line st)
               = Some (match prompt st with
                       | Some p => p
                       | None => offered_label line
                       end)).
  { unfold on_submission, offered_label. cbn. now destruct (prompt st). }
  repeat split; try assumption.
  - rewrite Hl. now apply run_keeps_label.
  - intros jj Hn. unfold log. cbn. now rewrite Hn.
  - intros jj p Hsome. unfold log. cbn. now rewrite Hsome.
Qed.

End ClassifierFacts.

(** * Properties of the text helpers *)

Module TextFacts.
Import PyStr Json Render Classifier LogStoreFacts Notions.

(** ** Characters kept by the string operations *)

Lemma chars_of_list (l : list ascii) : chars (string_of_list_ascii l) = l.
Proof. apply list_ascii_of_string_of_list_ascii. Qed.

Lemma string_app_assoc (a b c : string) : (a ++ b) ++ c = a ++ (b ++ c).
Proof.
  induction a as [|x a IH]; [reflexivity|]. cbn. now rewrite IH.
Qed.

Lemma len_chars (s : string) : len s = List.length (chars s).
Proof.
  induction s as [|c s IH]; [reflexivity|]. cbn. unfold len, chars in IH.
  now rewrite IH.
Qed.

Lemma take_chars (n : nat) (s : string) : chars (take n s) = firstn n (chars s).
Proof.
  revert s. induction n as [|n IH]; intros [|c s]; try reflexivity.
  cbn. unfold chars in IH. now rewrite IH.
Qed.

Lemma take_len (n : nat) (s : string) : len (take n s) <= n.
Proof.
  rewrite len_chars, take_chars. apply firstn_le_length.
Qed.

Lemma take_In (n : nat) (s : string) (c : ascii) :
  In c (chars (take n s)) -> In c (chars s).
Proof.
  rewrite take_chars. intros H.
  rewrite <- (firstn_skipn n (chars s)). apply in_or_app. now left.
Qed.

Lemma firstn_incl {A : Type} (n : nat) (l : list A) (x : A) :
  In x (firstn n l) -> In x l.
Proof.
  intros H. rewrite <- (firstn_skipn n l). apply in_or_app. now left.
Qed.

Lemma lstrip_In (s : string) (c : ascii) :
  In c (chars (lstrip s)) -> In c (chars s).
Proof.
  induction s as [|a s IH]; cbn [lstrip]; [tauto|].
  destruct (isspace a); [|tauto]. intros H. right. now apply IH.
Qed.

Lemma rstrip_In (s : string) (c : ascii) :
  In c (chars (rstrip s)) -> In c (chars s).
Proof.
  induction s as [|a s IH]; cbn [rstrip]; [tauto|].
  destruct (rstrip s) as [|b r] eqn:E.
  - destruct (isspace a); cbn; tauto.
  - cbn. intros [H|H]; [now left|]. right. apply IH. exact H.
Qed.

Lemma strip_In (s : string) (c : ascii) :
  In c (chars (strip s)) -> In c (chars s).
Proof.
  unfold strip. intros H. now apply lstrip_In, rstrip_In.
Qed.

Lemma lstrip_len (s : string) : len (lstrip s) <= len s.
Proof.
  unfold len. induction s as [|a s IH]; cbn [lstrip]; [lia|].
  destruct (isspace a); cbn in *; lia.
Qed.

Lemma rstrip_len (s : string) : len (rstrip s) <= len s.
Proof.
  unfold len. induction s as [|a s IH]; cbn [rstrip]; [lia|].
  destruct (rstrip s) as [|b r]; [destruct (isspace a)|]; cbn in *; lia.
Qed.

Lemma strip_len (s : string) : len (strip s) <= len s.
Proof.
  unfold strip. pose proof (rstrip_len (lstrip s)). pose proof (lstrip_len s). lia.
Qed.

Lemma join_In (sep : string) (parts : list string) (c : ascii) :
  In c (chars (join sep parts)) ->
  In c (chars sep) \/ exists p, In p parts /\ In c (chars p).
Proof.
  unfold join. induction parts as [|p parts IH]; cbn [concat]; [contradiction|].
  destruct parts as [|p' parts].
  - intros H. right. exists p. split; [now left | exact H].
  - rewrite !chars_app, !in_app_iff. intros [H|[H|H]].
    + right. exists p. split; [now left | exact H].
    + now left.
    + destruct (IH H) as [Hs|[x [Hx Hc]]]; [now left|].
      right. exists x. split; [now right | exact Hc].
Qed.

Lemma split_char_from_In sep cur s p c :
  In p (split_char_from sep cur s) -> In c (chars p) ->
  In c cur \/ In c (chars s).
Proof.
  revert cur. induction s as [|a s IH]; intros cur; cbn [split_char_from].
  - intros [<-|[]]. rewrite chars_of_list, <- in_rev. now left.
  - destruct (Ascii.eqb a sep).
    + intros [<-|H] Hc.
      * rewrite chars_of_list, <- in_rev in Hc. now left.
      * destruct (IH [] H Hc) as [[]|H']. right. now right.
    + intros H Hc. destruct (IH _ H Hc) as [[->|H']|H'].
      * right. now left.
      * now left.
      * right. now right.
Qed.

Lemma split_ws_from_In cur s p c :
  In p (split_ws_from cur s) -> In c (chars p) ->
  In c cur \/ (In c (chars s) /\ isspace c = false).
Proof.
  revert cur. induction s as [|a s IH]; intros cur; cbn [split_ws_from].
  - destruct cur as [|x cur]; [contradiction|].
    intros [<-|[]]. rewrite chars_of_list, <- in_rev. now left.
  - destruct (isspace a) eqn:Ha.
    + assert (Hrest : In p (split_ws_from [] s) -> In c (chars p) ->
                      In c cur \/ (In c (chars (String a s)) /\ isspace c = false)).
      { intros H Hc. destruct (IH [] H Hc) as [[]|[H1 H2]].
        right. split; [now right | exact H2]. }
      destruct cur as [|x cur]; [exact Hrest|].
      intros [<-|H] Hc; [|now apply Hrest].
      rewrite chars_of_list, <- in_rev in Hc. now left.
    + intros H Hc. destruct (IH _ H Hc) as [[->|H']|[H1 H2]].
      * right. split; [now left | exact Ha].
      * now left.
      * right. split; [now right | exact H2].
Qed.

(** ** [replace] where the old text does not occur *)

Lemma replace_first_absent (c : ascii) (old' new s : string) :
  ~ In c (chars s) -> replace (String c old') new s = s.
Proof.
  unfold replace. induction s as [|a s IH]; [reflexivity|].
  intros Hin. cbn [replace_from]. unfold startswith. cbn [String.prefix].
  destruct (ascii_dec c a) as [->|Hne].
  - exfalso. apply Hin. now left.
  - f_equal. apply IH. intros H. apply Hin. now right.
Qed.

(** ** [esc] *)

Lemma esc_no_gt (s : string) : ~ In LogStore.gt (chars (esc s)).
Proof.
  unfold esc, replace. apply (replace_from_char_absent LogStore.gt).
  cbn. intros H. repeat (destruct H as [H|H]; [discriminate|]). exact H.
Qed.

Lemma esc_no_lt (s : string) : ~ In lt_char (chars (esc s)).
Proof.
  unfold esc, replace. intros H. apply replace_from_chars in H.
  destruct H as [H|H].
  - cbn in H. repeat (destruct H as [H|H]; [discriminate|]). exact H.
  - revert H. apply (replace_from_char_absent lt_char).
    cbn. intros H. repeat (destruct H as [H|H]; [discriminate|]). exact H.
Qed.

(** [esc] leaves neither angle bracket in a text, whatever the text is. *)
Theorem esc_removes_angle_brackets (s : string) :
  ~ In lt_char (chars (esc s)) /\ ~ In LogStore.gt (chars (esc s)).
Proof.
  split; [apply esc_no_lt | apply esc_no_gt].
Qed.

(** [esc] returns a text without ampersand and angle brackets as it is. *)
Theorem esc_plain_text (s : string) :
  ~ In amp_char (chars s) -> ~ In lt_char (chars s) ->
  ~ In LogStore.gt (chars s) ->
  esc s = s.
Proof.
  intros Ha Hl Hg. unfold esc.
  rewrite (replace_first_absent amp_char EmptyString _ s Ha).
  rewrite (replace_first_absent lt_char EmptyString _ s Hl).
  exact (replace_first_absent LogStore.gt EmptyString _ s Hg).
Qed.

(** ** [short] *)

(** The preview of [short] has at most 80 characters, holds no white
    space but single spaces between words of the text, and is followed by
    the count of the lines of the text. *)
Theorem short_preview (s : string) :
  exists preview,
    short s = preview ++ "... [" ++ str_of_nat (count_lines s) ++ " lines]"
    /\ len preview <= 80
    /\ (forall c, In c (chars preview) ->
          c = space_char \/ (isspace c = false /\ In c (chars s)))
    /\ (forall c, In c (chars preview) -> islinebreak c = false).
Proof.
  exists (take 80 (join " " (firstn 15 (split_ws s)))).
  assert (Hchars : forall c,
             In c (chars (take 80 (join " " (firstn 15 (split_ws s))))) ->
             c = space_char \/ (isspace c = false /\ In c (chars s))).
  { intros c Hc. apply take_In, join_In in Hc.
    destruct Hc as [[<-|[]]|[p [Hp Hc]]]; [now left|].
    right. apply firstn_incl in Hp. unfold split_ws in Hp.
    destruct (split_ws_from_In [] s p c Hp Hc) as [[]|[H1 H2]]. tauto. }
  split; [reflexivity|]. split; [apply take_len|]. split; [exact Hchars|].
  intros c Hc. destruct (Hchars c Hc) as [->|[Hs _]]; [reflexivity|].
  revert Hs. unfold isspace, islinebreak.
  generalize (nat_of_ascii c). intros n Hs.
  repeat (apply orb_false_iff in Hs; destruct Hs as [Hs ?]).
  apply andb_false_iff in Hs. apply andb_false_iff in H1.
  repeat (apply orb_false_iff; split); try assumption;
    apply andb_false_iff;
    repeat match goal with
           | H : _ \/ _ |- _ => destruct H
           | H : (_ <=? _)%nat = false |- _ => apply Nat.leb_gt in H
           | H : (_ =? _)%nat = false |- _ => apply Nat.eqb_neq in H
           end;
    try (left; apply Nat.leb_gt; lia); try (right; apply Nat.leb_gt; lia).
Qed.

(** ** [unescape_rust] *)

(** A text that holds no backslash and no NUL character is returned as it
    is. *)
Theorem unescape_rust_plain (s : string) :
  ~ In backslash (chars s) -> ~ In nul_char (chars s) ->
  unescape_rust s = s.
Proof.
  intros Hb Hn. unfold unescape_rust.
  rewrite (replace_first_absent backslash (char1 backslash) nul s Hb).
  rewrite (replace_first_absent backslash "n" _ s Hb).
  rewrite (replace_first_absent backslash "r" _ s Hb).
  rewrite (replace_first_absent backslash "t" _ s Hb).
  rewrite (replace_first_absent backslash (char1 dquote) _ s Hb).
  unfold nul. exact (replace_first_absent nul_char EmptyString _ s Hn).
Qed.

(** What [unescape_rust] returns holds no NUL character: the ones it
    wrote for the double backslashes, and the ones of the text, have
    become backslashes. *)
Theorem unescape_rust_no_nul (s : string) :
  ~ In nul_char (chars (unescape_rust s)).
Proof.
  unfold unescape_rust, nul, replace.
  apply (replace_from_char_absent nul_char).
  cbn. intros [H|[]]. discriminate.
Qed.

(** ** The label of a submission *)

Lemma keep_word_chars_In (s : string) (c : ascii) :
  In c (chars (keep_word_chars s)) -> keeps c = true.
Proof.
  induction s as [|a s IH]; cbn [keep_word_chars]; [contradiction|].
  destruct (keeps a) eqn:Ha; [|exact IH].
  cbn. intros [<-|H]; [exact Ha | now apply IH].
Qed.

(** The text that a submission line offers as label has at most 20
    characters, each of them an ASCII letter, a digit, the underscore,
    the space or the hyphen; so has the label, with three characters
    more, and it holds no slash. *)
Theorem submission_text_safe (line : string) :
  len (submission_text line) <= 20
  /\ (forall c, In c (chars (submission_text line)) -> keeps c = true)
  /\ len (offered_label line) <= 23
  /\ (forall c, In c (chars (offered_label line)) -> keeps c = true)
  /\ ~ In slash_char (chars (offered_label line)).
Proof.
  assert (Hlen : len (submission_text line) <= 20).
  { unfold submission_text.
    eapply Nat.le_trans; [apply strip_len | apply take_len]. }
  assert (Hchars : forall c, In c (chars (submission_text line)) ->
                             keeps c = true).
  { unfold submission_text. intros c Hc.
    apply strip_In, take_In, join_In in Hc.
    destruct Hc as [[<-|[]]|[p [Hp Hc]]]; [reflexivity|].
    apply firstn_incl in Hp. unfold split_char in Hp.
    destruct (split_char_from_In _ _ _ _ _ Hp Hc) as [[]|H].
    apply strip_In in H. now apply keep_word_chars_In in H. }
  assert (Hlabel : forall c, In c (chars (offered_label line)) ->
                             keeps c = true).
  { intros c. unfold offered_label.
    destruct (len (submission_text line) =? 0)%nat; [contradiction|].
    rewrite chars_app, in_app_iff. intros [H|H]; [|now apply Hchars].
    cbn in H. repeat (destruct H as [<-|H]; [reflexivity|]). contradiction. }
  repeat split; try assumption.
  - unfold offered_label.
    destruct (len (submission_text line) =? 0)%nat; [cbn; lia|].
    unfold len in *. cbn [append String.length]. lia.
  - intros H. apply Hlabel in H. discriminate.
Qed.

(** ** The text of a submission line *)







(** ** The JSON text of a line *)

Lemma from_brace_found (line : string) :
  has_brace line = true ->
  exists rest, from_brace line = Some (String brace rest).
Proof.
  unfold has_brace. induction line as [|c line IH]; cbn [contains from_brace].
  - discriminate.
  - unfold startswith, char1. cbn [String.prefix].
    destruct (Ascii.eqb_spec c brace) as [->|Hne].
    + intros _. now exists line.
    + destruct (ascii_dec brace c) as [Heq|_]; [congruence|].
      cbn [orb]. exact IH.
Qed.

(** The text handed to the parser for a line that holds an opening brace
    starts with that brace. *)
Theorem json_text_starts_with_brace (line : string) :
  has_brace line = true ->
  startswith (char1 brace) (json_text line) = true.
Proof.
  intros H. destruct (from_brace_found line H) as [rest Hr].
  unfold json_text. rewrite Hr. unfold strip. cbn [lstrip].
  replace (isspace brace) with false by reflexivity.
  cbn [rstrip]. destruct (rstrip rest); reflexivity.
Qed.

End TextFacts.

(** * Further properties of the delta engine *)

Module DeltaMore.
Import Json Delta DictFacts DeltaFacts.

(** ** The size of a dict under the loops *)

Lemma dict_set_length {A : Type} (d : list (string * A)) k v :
  List.length d <= List.length (dict_set d k v)
  /\ 0 < List.length (dict_set d k v).
Proof.
  induction d as [|[k' v'] d IH]; cbn; [lia|].
  destruct (String.eqb k k'); cbn; lia.
Qed.

Lemma removed_loop_length ks delta :
  List.length delta <= List.length (removed_loop ks delta)
  /\ (ks <> [] -> 0 < List.length (removed_loop ks delta)).
Proof.
  unfold removed_loop. revert delta.
  induction ks as [|k ks IH]; intros delta; cbn [fold_left].
  - split; [lia | congruence].
  - destruct (IH (dict_set delta (removed_key k) JNull)) as [H1 _].
    destruct (dict_set_length delta (removed_key k) JNull).
    split; [lia | intros _; lia].
Qed.

Lemma added_loop_length newl ks delta delta' :
  added_loop newl ks delta = Ok delta' ->
  List.length delta <= List.length delta'
  /\ (ks <> [] -> 0 < List.length delta').
Proof.
  revert delta. induction ks as [|k ks IH]; intros delta; cbn [added_loop].
  - intros [= <-]. split; [lia | congruence].
  - destruct (lookup k newl) as [v|]; [|discriminate]. intros H.
    destruct (IH _ H) as [H1 _].
    destruct (dict_set_length delta (added_key k) v).
    split; [lia | intros _; lia].
Qed.

Lemma record_change_length k identical sub delta delta' :
  record_change k identical sub delta = Ok delta' ->
  List.length delta <= List.length delta'
  /\ (identical = false -> 0 < List.length delta').
Proof.
  unfold record_change. destruct identical.
  - intros [= <-]. split; [lia | discriminate].
  - assert (H : forall key v, List.length delta <= List.length (dict_set delta key v)
                              /\ (false = false -> 0 < List.length (dict_set delta key v))).
    { intros key v. destruct (dict_set_length delta key v). split; [lia | auto]. }
    destruct sub as [ | | | | |[|first rest]| ]; try (intros [= <-]; apply H).
    destruct (py_eq first sentinel); intros [= <-]; apply H.
Qed.

Lemma common_loop_length rec newl ks delta delta' :
  common_loop rec newl ks delta = Ok delta' ->
  List.length delta <= List.length delta'.
Proof.
  revert delta. induction ks as [|k ks IH]; intros delta; cbn [common_loop].
  - intros [= <-]. lia.
  - destruct (lookup k newl) as [v|]; [|discriminate].
    destruct (rec k v) as [[identical sub]|e]; cbn [bind]; [|discriminate].
    destruct (record_change k identical sub delta) as [d1|e] eqn:Hr;
      cbn [bind]; [|discriminate].
    intros H. apply IH in H. apply record_change_length in Hr. lia.
Qed.

Lemma common_loop_empty rec newl ks delta :
  common_loop rec newl ks delta = Ok [] ->
  delta = []
  /\ forall k, In k ks ->
       exists v sub, lookup k newl = Some v /\ rec k v = Ok (true, sub).
Proof.
  revert delta. induction ks as [|k ks IH]; intros delta; cbn [common_loop].
  - intros [= ->]. split; [reflexivity | contradiction].
  - destruct (lookup k newl) as [v|] eqn:Hv; [|discriminate].
    destruct (rec k v) as [[identical sub]|e] eqn:Hrec; cbn [bind];
      [|discriminate].
    destruct (record_change k identical sub delta) as [d1|e] eqn:Hr;
      cbn [bind]; [|discriminate].
    intros H. destruct (IH _ H) as [-> Hks].
    apply record_change_length in Hr. destruct Hr as [Hle Hpos].
    destruct identical.
    + split; [destruct delta; [reflexivity | cbn in Hle; lia]|].
      intros k' [<-|Hin]; [now exists v, sub | now apply Hks].
    + specialize (Hpos eq_refl). cbn in Hpos. lia.
Qed.

Lemma sorted_difference_nil a b :
  sorted_difference a b = [] <-> (forall k, In k a -> In k b).
Proof.
  split.
  - intros H k Hk. destruct (in_dec string_dec k b) as [Hb|Hb]; [exact Hb|].
    exfalso. assert (Hin : In k (sorted_difference a b))
      by (apply sorted_difference_In; tauto).
    now rewrite H in Hin.
  - intros H. destruct (sorted_difference a b) as [|k l] eqn:E; [reflexivity|].
    assert (Hin : In k (sorted_difference a b)) by (rewrite E; now left).
    apply sorted_difference_In in Hin. destruct Hin as [Ha Hb].
    exfalso. apply Hb. now apply H.
Qed.

(** ** What [identical] means *)

Lemma identical_dicts (prevl newl : dict) :
  identical (JDict prevl) (JDict newl)
  <-> (forall k, In k (keys prevl) <-> In k (keys newl))
      /\ (forall k pv nv, lookup k prevl = Some pv -> lookup k newl = Some nv ->
                          identical pv nv).
Proof.
  unfold identical. split.
  - intros [d Hc]. rewrite calc_dict_eq in Hc. unfold dict_branch in Hc.
    destruct (added_loop newl _ _) as [d1|e] eqn:Ha; [|discriminate].
    cbn [bind] in Hc.
    destruct (common_loop _ newl _ d1) as [d2|e] eqn:Hl; [|discriminate].
    cbn [bind] in Hc. injection Hc as Hlen _.
    apply Nat.eqb_eq in Hlen. destruct d2; [|discriminate].
    destruct (common_loop_empty _ _ _ _ Hl) as [-> Hall].
    destruct (added_loop_length _ _ _ _ Ha) as [Hle Hpos].
    assert (Hadded : sorted_difference (keys newl) (keys prevl) = []).
    { destruct (sorted_difference (keys newl) (keys prevl)); [reflexivity|].
      assert (0 < 0) by (apply Hpos; discriminate). lia. }
    assert (Hremoved : sorted_difference (keys prevl) (keys newl) = []).
    { destruct (removed_loop_length (sorted_difference (keys prevl) (keys newl)) [])
        as [_ Hr].
      destruct (sorted_difference (keys prevl) (keys newl)); [reflexivity|].
      assert (0 < List.length (removed_loop (s :: l) [])) by (apply Hr; discriminate).
      change (List.length (@nil (string * value))) with 0 in Hle. lia. }
    rewrite sorted_difference_nil in Hadded, Hremoved. split.
    + intros k. split; auto.
    + intros k pv nv Hp Hn.
      assert (Hin : In k (sorted_intersection (keys prevl) (keys newl))).
      { apply sorted_intersection_In. split.
        - apply lookup_Some_In in Hp. unfold keys. now apply (in_map fst) in Hp.
        - apply lookup_Some_In in Hn. unfold keys. now apply (in_map fst) in Hn. }
      destruct (Hall k Hin) as [v [sub [Hv Hr]]].
      rewrite Hn in Hv. injection Hv as <-.
      unfold rec_call in Hr. rewrite Hp in Hr. now exists sub.
  - intros [Hkeys Hvals]. exists (JDict []).
    rewrite calc_dict_eq. unfold dict_branch.
    replace (sorted_difference (keys prevl) (keys newl)) with (@nil string)
      by (symmetry; apply sorted_difference_nil; intros k; apply Hkeys).
    replace (sorted_difference (keys newl) (keys prevl)) with (@nil string)
      by (symmetry; apply sorted_difference_nil; intros k; apply Hkeys).
    cbn [removed_loop fold_left added_loop bind].
    rewrite common_loop_identical; [reflexivity|].
    intros k Hin. apply sorted_intersection_In in Hin. destruct Hin as [Hp Hn].
    destruct (lookup_In k prevl Hp) as [pv [Hpv _]].
    destruct (lookup_In k newl Hn) as [nv [Hnv _]].
    destruct (Hvals k pv nv Hpv Hnv) as [sub Hsub].
    exists nv, sub. split; [exact Hnv|]. unfold rec_call. now rewrite Hpv.
Qed.

Lemma all_identical_of_Forall2 (prevl newl : list value) :
  Forall2 identical prevl newl ->
  all_identical (map calculate_json_delta prevl) newl = Ok true.
Proof.
  induction 1 as [|a b prevl newl [d Hab] _ IH]; [reflexivity|].
  cbn [map all_identical]. rewrite Hab. cbn [bind]. exact IH.
Qed.

Lemma identical_lists (prevl newl : list value) :
  identical (JList prevl) (JList newl) <-> Forall2 identical prevl newl.
Proof.
  unfold identical at 1. split.
  - intros [d Hc]. rewrite calc_list_eq in Hc. apply list_branch_shape in Hc.
    unfold list_result in Hc. rewrite !length_map in Hc.
    destruct Hc as [[_ [_ [Hlen Hall]]]|[[Hb _]|[Hb _]]]; try discriminate.
    rewrite <- (firstn_all newl), <- Hlen.
    apply all_identical_Forall2; [exact Hall | lia].
  - intros H. exists (JList []). rewrite calc_list_eq. unfold list_branch.
    rewrite length_map, (Forall2_length H), Nat.leb_refl.
    rewrite (all_identical_of_Forall2 _ _ H). cbn [bind andb].
    now rewrite Nat.eqb_refl.
Qed.

(** ** Python equality is symmetric *)

Lemma SFeqb_sym (f g : spec_float) : SFeqb f g = SFeqb g f.
Proof.
  unfold SFeqb, SFcompare.
  destruct f as [s|s| |s m e], g as [s'|s'| |s' m' e']; try reflexivity;
    try (destruct s, s'; reflexivity); try (destruct s; reflexivity);
    try (destruct s'; reflexivity).
  assert (Hm : Pos.compare_cont Eq m' m = CompOpp (Pos.compare_cont Eq m m'))
    by (now rewrite Pos.compare_cont_antisym).
  rewrite (Z.compare_antisym e e'), Hm.
  destruct s, s'; try reflexivity;
    destruct (e ?= e')%Z; cbn [CompOpp]; try reflexivity;
    destruct (Pos.compare_cont Eq m m'); reflexivity.
Qed.

Lemma py_eq_sym (a b : value) : py_eq a b = py_eq b a.
Proof.
  destruct a, b; cbn [py_eq]; try reflexivity.
  - now destruct b, b0.
  - apply Z.eqb_sym.
  - apply SFeqb_sym.
  - apply String.eqb_sym.
Qed.

Lemma py_eq_true_scalar (a b : value) :
  py_eq a b = true ->
  is_dict a = false /\ is_list a = false
  /\ is_dict b = false /\ is_list b = false.
Proof.
  destruct a, b; cbn; intros H; try discriminate; repeat split.
Qed.

Lemma identical_mixed (a b : value) :
  is_dict a && is_dict b = false -> is_list a && is_list b = false ->
  (identical a b <-> py_eq a b = true).
Proof.
  intros Hd Hl. unfold identical. rewrite (calc_scalar_eq a b Hd Hl). split.
  - now intros [d [= -> _]].
  - intros ->. now exists b.
Qed.

Lemma Forall2_flip_In {A : Type} (R : A -> A -> Prop) (l l' : list A) :
  Forall (fun a => forall b, R a b -> R b a) l ->
  Forall2 R l l' -> Forall2 R l' l.
Proof.
  intros Hl H. induction H as [|a b l l' Hab _ IH]; [constructor|].
  inversion Hl as [|? ? Ha Hrest]; subst.
  constructor; [now apply Ha | now apply IH].
Qed.

Lemma identical_sym (a : value) : forall b, identical a b -> identical b a.
Proof.
  induction a as [ | x | n | f | s | items IH | entries IH ] using value_ind;
    intros b Hab;
    try (apply identical_mixed in Hab; [|reflexivity|reflexivity];
         destruct (py_eq_true_scalar _ _ Hab) as [_ [_ [Hd Hl]]];
         apply identical_mixed;
         [now rewrite Hd | now rewrite Hl | now rewrite py_eq_sym]).
  - destruct b as [ | | | | | newl | ];
      try (apply identical_mixed in Hab; [discriminate|reflexivity|reflexivity]).
    apply identical_lists. apply identical_lists in Hab.
    now apply Forall2_flip_In with (l := items).
  - destruct b as [ | | | | | | newl ];
      try (apply identical_mixed in Hab; [discriminate|reflexivity|reflexivity]).
    apply identical_dicts. apply identical_dicts in Hab.
    destruct Hab as [Hkeys Hvals]. split.
    + intros k. symmetry. apply Hkeys.
    + intros k nv pv Hn Hp. rewrite Forall_forall in IH.
      apply (IH (k, pv) (lookup_Some_In _ _ _ Hp)).
      now apply (Hvals k pv nv).
Qed.

(** ** Keys that a delta reports *)

Lemma mem_dict_set_same {A : Type} (d : list (string * A)) k v :
  mem k (dict_set d k v) = true.
Proof.
  now rewrite mem_lookup, lookup_dict_set_same.
Qed.

Lemma mem_dict_set_mono {A : Type} (d : list (string * A)) K k v :
  mem K d = true -> mem K (dict_set d k v) = true.
Proof.
  intros H. destruct (string_dec K k) as [->|Hne].
  - apply mem_dict_set_same.
  - rewrite mem_lookup, lookup_dict_set_other by exact Hne.
    now rewrite <- mem_lookup.
Qed.

Lemma removed_loop_mem K ks delta :
  mem K delta = true \/ (exists k, In k ks /\ removed_key k = K) ->
  mem K (removed_loop ks delta) = true.
Proof.
  unfold removed_loop. revert delta.
  induction ks as [|k ks IH]; intros delta; cbn [fold_left].
  - intros [H|[k [[] _]]]. exact H.
  - intros [H|[k' [[<-|Hin] Hk]]]; apply IH.
    + left. now apply mem_dict_set_mono.
    + left. subst K. apply mem_dict_set_same.
    + right. now exists k'.
Qed.

Lemma added_loop_mem K newl ks delta delta' :
  added_loop newl ks delta = Ok delta' ->
  mem K delta = true \/ (exists k, In k ks /\ added_key k = K) ->
  mem K delta' = true.
Proof.
  revert delta. induction ks as [|k ks IH]; intros delta; cbn [added_loop].
  - intros [= <-] [H|[k [[] _]]]. exact H.
  - destruct (lookup k newl) as [v|]; [|discriminate].
    intros Ha [H|[k' [[<-|Hin] Hk]]]; apply (IH _ Ha).
    + left. now apply mem_dict_set_mono.
    + left. subst K. apply mem_dict_set_same.
    + right. now exists k'.
Qed.

Lemma record_change_mem K k identical sub delta delta' :
  record_change k identical sub delta = Ok delta' ->
  mem K delta = true -> mem K delta' = true.
Proof.
  unfold record_change. destruct identical; [now intros [= <-]|].
  destruct sub as [ | | | | |[|first rest]| ];
    try (intros [= <-]; apply mem_dict_set_mono).
  destruct (py_eq first sentinel); intros [= <-]; apply mem_dict_set_mono.
Qed.

Lemma record_change_reports k sub delta delta' :
  record_change k false sub delta = Ok delta' ->
  mem (changed_key k) delta' = true \/ mem (appended_key k) delta' = true.
Proof.
  unfold record_change.
  destruct sub as [ | | | | |[|first rest]| ];
    try (intros [= <-]; left; apply mem_dict_set_same).
  destruct (py_eq first sentinel); intros [= <-];
    [right | left]; apply mem_dict_set_same.
Qed.

Lemma common_loop_mem K rec newl ks delta delta' :
  common_loop rec newl ks delta = Ok delta' ->
  mem K delta = true -> mem K delta' = true.
Proof.
  revert delta. induction ks as [|k ks IH]; intros delta; cbn [common_loop].
  - now intros [= <-].
  - destruct (lookup k newl) as [v|]; [|discriminate].
    destruct (rec k v) as [[identical sub]|e]; cbn [bind]; [|discriminate].
    destruct (record_change k identical sub delta) as [d1|e] eqn:Hr;
      cbn [bind]; [|discriminate].
    intros H Hm. apply (IH _ H). now apply (record_change_mem _ _ _ _ _ _ Hr).
Qed.

Lemma common_loop_reports rec newl ks delta delta' k v sub :
  common_loop rec newl ks delta = Ok delta' ->
  In k ks -> lookup k newl = Some v -> rec k v = Ok (false, sub) ->
  mem (changed_key k) delta' = true \/ mem (appended_key k) delta' = true.
Proof.
  intros Hloop Hin Hv Hrec. revert delta Hloop Hin.
  induction ks as [|k0 ks IH]; intros delta; cbn [common_loop]; [contradiction|].
  destruct (lookup k0 newl) as [v0|] eqn:Hv0; [|discriminate].
  destruct (rec k0 v0) as [[identical sub0]|e] eqn:Hr0; cbn [bind];
    [|discriminate].
  destruct (record_change k0 identical sub0 delta) as [d1|e] eqn:Hr;
    cbn [bind]; [|discriminate].
  intros Hloop Hin. destruct (string_dec k0 k) as [->|Hne].
  - rewrite Hv in Hv0. injection Hv0 as <-.
    rewrite Hrec in Hr0. injection Hr0 as <- <-.
    destruct (record_change_reports _ _ _ _ Hr) as [H|H]; [left | right];
      now apply (common_loop_mem _ _ _ _ _ _ Hloop).
  - destruct Hin as [Heq|Hin]; [congruence|]. now apply (IH d1).
Qed.

(** ** An append under a key *)

Lemma record_change_lookup_other K k identical sub delta delta' :
  record_change k identical sub delta = Ok delta' ->
  changed_key k <> K -> appended_key k <> K ->
  lookup K delta' = lookup K delta.
Proof.
  unfold record_change. intros H Hc Ha. destruct identical; [now injection H as <-|].
  destruct sub as [ | | | | |[|first rest]| ];
    try (injection H as <-; apply lookup_dict_set_other; congruence);
    [discriminate|].
  destruct (py_eq first sentinel); injection H as <-;
    apply lookup_dict_set_other; congruence.
Qed.

Lemma common_loop_append prevl newl k a b :
  (forall k', In k' (keys prevl) \/ In k' (keys newl) ->
              ends_with_plus k' = false) ->
  lookup k prevl = Some (JList a) ->
  lookup k newl = Some (JList (a ++ b)) ->
  Forall json_value a -> b <> [] ->
  forall ks delta delta',
    (forall k', In k' ks -> In k' (keys prevl) /\ In k' (keys newl)) ->
    common_loop (rec_call prevl) newl ks delta = Ok delta' ->
    In k ks \/ lookup (appended_key k) delta = Some (JList b) ->
    lookup (appended_key k) delta' = Some (JList b).
Proof.
  intros Hplain Hp Hn Ha Hb.
  induction ks as [|k0 ks IH]; intros delta delta' Hks; cbn [common_loop].
  - intros [= <-] [[]|H]. exact H.
  - destruct (lookup k0 newl) as [v0|] eqn:Hv0; [|discriminate].
    destruct (rec_call prevl k0 v0) as [[identical sub]|e] eqn:Hr0;
      cbn [bind]; [|discriminate].
    destruct (record_change k0 identical sub delta) as [d1|e] eqn:Hr;
      cbn [bind]; [|discriminate].
    intros Hloop Hstart.
    apply (IH d1 delta' (fun k' Hk' => Hks k' (or_intror Hk')) Hloop).
    destruct (string_dec k0 k) as [->|Hne].
    + right. rewrite Hn in Hv0. injection Hv0 as <-.
      unfold rec_call in Hr0. rewrite Hp in Hr0.
      rewrite (calc_append a b Ha Hb) in Hr0. injection Hr0 as <- <-.
      cbn in Hr. injection Hr as <-. apply lookup_dict_set_same.
    + destruct Hstart as [[Heq|Hin]|Hl]; [congruence | now left |].
      right. rewrite (record_change_lookup_other _ _ _ _ _ _ Hr); [exact Hl | |].
      * apply plain_key_not_appended; [|right; discriminate].
        apply Hplain. left. apply (Hks k0). now left.
      * intros Heq. apply appended_key_inj in Heq. congruence.
Qed.

(** ** The properties *)

(** The only exception that [calculate_json_delta] raises is the
    [IndexError] of the first item of an empty child delta. *)
Theorem only_index_error (prev new : value) (e : exn) :
  calculate_json_delta prev new = Raise e -> e = IndexError.
Proof.
  exact (calc_raises_index_only prev new e).
Qed.

(** When the two values are found identical, the delta is empty: the
    empty mapping or sequence for a mapping or sequence, and [new] itself
    otherwise. *)
Theorem identical_delta_is_empty (prev new d : value) :
  calculate_json_delta prev new = Ok (true, d) -> d = empty_like new.
Proof.
  destruct (is_list prev && is_list new) eqn:Hl;
    [|destruct (is_dict prev && is_dict new) eqn:Hd].
  - destruct prev as [ | | | | | prevl | ]; try discriminate.
    destruct new as [ | | | | | newl | ]; try discriminate.
    rewrite calc_list_eq. intros H. apply list_branch_shape in H.
    destruct H as [[_ [Hd _]]|[[Hb _]|[Hb _]]]; [exact Hd | discriminate..].
  - destruct prev as [ | | | | | | prevl ]; try discriminate.
    destruct new as [ | | | | | | newl ]; try discriminate.
    rewrite calc_dict_eq. intros H. apply dict_branch_shape in H.
    destruct H as [delta [-> [_ Hb]]]. symmetry in Hb. apply Nat.eqb_eq in Hb.
    destruct delta; [reflexivity | discriminate].
  - rewrite (calc_scalar_eq prev new Hd Hl). intros [= Heq <-].
    destruct (py_eq_true_scalar _ _ Heq) as [_ [_ [Hnd Hnl]]].
    destruct new; try reflexivity; discriminate.
Qed.

(** Two mappings are identical exactly when they have the same keys and
    the values under each key are identical. *)
Theorem identical_mappings (prevl newl : dict) :
  identical (JDict prevl) (JDict newl)
  <-> (forall k, In k (keys prevl) <-> In k (keys newl))
      /\ (forall k pv nv, lookup k prevl = Some pv -> lookup k newl = Some nv ->
                          identical pv nv).
Proof.
  exact (identical_dicts prevl newl).
Qed.

(** Two sequences are identical exactly when they have the same length
    and their items are identical pair by pair. *)
Theorem identical_sequences (prevl newl : list value) :
  identical (JList prevl) (JList newl) <-> Forall2 identical prevl newl.
Proof.
  exact (identical_lists prevl newl).
Qed.

(** Being identical does not depend on the order of the two values. *)
Theorem identical_symmetric (a b : value) :
  identical a b -> identical b a.
Proof.
  exact (identical_sym a b).
Qed.

(** A returned delta of two mappings misses no change: every key only in
    [prev] is there with the minus marker, every key only in [new] with
    the plus marker, and every key of both whose values are not identical
    with the star marker or with the trailing plus. *)
Theorem delta_reports_every_change (prevl newl delta : dict) (b : bool) :
  calculate_json_delta (JDict prevl) (JDict newl) = Ok (b, JDict delta) ->
  (forall k, In k (keys prevl) -> ~ In k (keys newl) ->
             mem (removed_key k) delta = true)
  /\ (forall k, In k (keys newl) -> ~ In k (keys prevl) ->
                mem (added_key k) delta = true)
  /\ (forall k pv nv, lookup k prevl = Some pv -> lookup k newl = Some nv ->
                      ~ identical pv nv ->
                      mem (changed_key k) delta = true
                      \/ mem (appended_key k) delta = true).
Proof.
  rewrite calc_dict_eq. unfold dict_branch.
  destruct (added_loop newl _ _) as [d1|e] eqn:Ha; [|discriminate].
  cbn [bind].
  destruct (common_loop _ newl _ d1) as [d2|e] eqn:Hl; [|discriminate].
  cbn [bind]. intros [= _ <-]. repeat split.
  - intros k Hp Hn. apply (common_loop_mem _ _ _ _ _ _ Hl).
    apply (added_loop_mem _ _ _ _ _ Ha). left. apply removed_loop_mem.
    right. exists k. split; [|reflexivity]. apply sorted_difference_In. tauto.
  - intros k Hn Hp. apply (common_loop_mem _ _ _ _ _ _ Hl).
    apply (added_loop_mem _ _ _ _ _ Ha). right.
    exists k. split; [|reflexivity]. apply sorted_difference_In. tauto.
  - intros k pv nv Hp Hn Hdiff.
    assert (Hin : In k (sorted_intersection (keys prevl) (keys newl))).
    { apply sorted_intersection_In. split.
      - apply lookup_Some_In in Hp. unfold keys. now apply (in_map fst) in Hp.
      - apply lookup_Some_In in Hn. unfold keys. now apply (in_map fst) in Hn. }
    destruct (rec_call prevl k nv) as [[identical_k sub]|e] eqn:Hr.
    + destruct identical_k.
      * exfalso. apply Hdiff. unfold rec_call in Hr. rewrite Hp in Hr.
        now exists sub.
      * apply (common_loop_reports _ _ _ _ _ k nv sub Hl Hin Hn Hr).
    + exfalso. clear - Hl Hin Hn Hr.
      revert Hl Hin. generalize d1.
      induction (sorted_intersection (keys prevl) (keys newl)) as [|k0 ks IH];
        intros d; cbn [common_loop]; [contradiction|].
      destruct (lookup k0 newl) as [v0|] eqn:Hv0; [|discriminate].
      destruct (rec_call prevl k0 v0) as [[i0 s0]|e0] eqn:Hr0; cbn [bind];
        [|discriminate].
      destruct (record_change k0 i0 s0 d) as [dn|e1]; cbn [bind];
        [|discriminate].
      intros Hloop [->|Hin]; [congruence | now apply (IH dn)].
Qed.

(** When the sequence under a key of both mappings grows by appended
    items only, and no key ends with the plus sign, a returned delta
    holds exactly the appended items under that key followed by the plus
    sign, and the mappings are not identical. *)
Theorem append_under_key_reported (prevl newl delta : dict) (bb : bool)
    (k : string) (a b : list value) :
  calculate_json_delta (JDict prevl) (JDict newl) = Ok (bb, JDict delta) ->
  (forall k', In k' (keys prevl) \/ In k' (keys newl) ->
              ends_with_plus k' = false) ->
  lookup k prevl = Some (JList a) ->
  lookup k newl = Some (JList (a ++ b)) ->
  Forall json_value a -> b <> [] ->
  lookup (appended_key k) delta = Some (JList b) /\ bb = false.
Proof.
  intros Hc Hplain Hp Hn Ha Hb.
  rewrite calc_dict_eq in Hc. unfold dict_branch in Hc.
  destruct (added_loop newl _ _) as [d1|e] eqn:Hadd; [|discriminate].
  cbn [bind] in Hc.
  destruct (common_loop _ newl _ d1) as [d2|e] eqn:Hl; [|discriminate].
  cbn [bind] in Hc. injection Hc as <- <-.
  assert (Hlook : lookup (appended_key k) d2 = Some (JList b)).
  { apply (common_loop_append prevl newl k a b Hplain Hp Hn Ha Hb _ _ _
             (fun k' Hk' => proj1 (sorted_intersection_In k' _ _) Hk') Hl).
    left. apply sorted_intersection_In. split.
    - apply lookup_Some_In in Hp. unfold keys. now apply (in_map fst) in Hp.
    - apply lookup_Some_In in Hn. unfold keys. now apply (in_map fst) in Hn. }
  split; [exact Hlook|]. destruct d2; [discriminate | reflexivity].
Qed.

End DeltaMore.

(** * Further properties of the log store *)

Module LogStoreMore.
Import PyStr Json LogStore DictFacts LogStoreFacts TextFacts Notions.

(** ** No two hyphens in a row *)

Lemma contains_cons (needle : string) (c : ascii) (s : string) :
  contains needle (String c s)
  = startswith needle (String c s) || contains needle s.
Proof. reflexivity. Qed.

Lemma startswith_dashes (c : ascii) (s : string) :
  startswith dashes (String c s)
  = Ascii.eqb c "-" && startswith "-" s.
Proof.
  unfold startswith, dashes. cbn [String.prefix].
  destruct (ascii_dec "-" c) as [<-|Hne]; [reflexivity|].
  symmetry. apply andb_false_iff. left. apply Ascii.eqb_neq. congruence.
Qed.

Lemma replace_dashes_clean (s : string) :
  forall skip,
    contains dashes (replace_from dashes dash_escape skip s) = false
    /\ (skip = 0 ->
        startswith "-" (replace_from dashes dash_escape skip s) = true ->
        startswith "-" s = true).
Proof.
  induction s as [|c s IH]; intros skip.
  - cbn. split; [reflexivity | intros _ H; exact H].
  - cbn [replace_from]. destruct skip as [|n].
    + destruct (startswith dashes (String c s)) eqn:Hd.
      * destruct (IH (len dashes - 1)) as [Hclean _]. split.
        -- unfold dash_escape. cbn [append].
           repeat (rewrite contains_cons, startswith_dashes; cbn [Ascii.eqb andb orb]).
           unfold backslash. cbn. exact Hclean.
        -- intros _ _. rewrite startswith_dashes in Hd.
           apply andb_true_iff in Hd. destruct Hd as [Hc _].
           apply Ascii.eqb_eq in Hc. subst c.
           unfold startswith. cbn [String.prefix].
           destruct (ascii_dec "-" "-"); [now destruct s | congruence].
      * destruct (IH 0) as [Hclean Hstart]. split.
        -- rewrite contains_cons, startswith_dashes, Hclean, orb_false_r.
           rewrite startswith_dashes in Hd.
           destruct (Ascii.eqb c "-"); [|reflexivity]. cbn [andb] in *.
           destruct (startswith "-" (replace_from dashes dash_escape 0 s)) eqn:E;
             [|reflexivity].
           rewrite (Hstart eq_refl eq_refl) in Hd. discriminate.
        -- intros _ H. unfold startswith in *. cbn [String.prefix] in *.
           destruct (ascii_dec "-" c); [|discriminate]. now destruct s.
    + destruct (IH n) as [Hclean _]. split; [exact Hclean | discriminate].
Qed.

(** ** No control character in a log entry *)

Lemma printable_app (a b : string) :
  printable a -> printable b -> printable (a ++ b).
Proof.
  intros Ha Hb c. rewrite chars_app, in_app_iff. intros [H|H]; auto.
Qed.

Lemma printable_literal (s : string) :
  forallb (fun c => negb (is_control c)) (chars s) = true -> printable s.
Proof.
  intros H c Hc. rewrite forallb_forall in H. apply H in Hc.
  now apply negb_true_iff in Hc.
Qed.

Lemma escape_char_printable (c : ascii) : printable (escape_char c).
Proof.
  apply printable_literal.
  destruct c as [[] [] [] [] [] [] [] []]; reflexivity.
Qed.

Lemma encode_str_printable (s : string) : printable (encode_str s).
Proof.
  unfold encode_str.
  assert (H : printable (escape_chars s)).
  { induction s as [|c s IH]; cbn [escape_chars].
    - intros c [].
    - apply printable_app; [apply escape_char_printable | exact IH]. }
  change (String dquote (escape_chars s ++ char1 dquote))
    with (char1 dquote ++ (escape_chars s ++ char1 dquote)).
  repeat apply printable_app; try exact H; now apply printable_literal.
Qed.

Lemma string_of_uint_printable (d : Decimal.uint) :
  printable (NilEmpty.string_of_uint d).
Proof.
  induction d; cbn [NilEmpty.string_of_uint]; intros x Hx;
    [contradiction | destruct Hx as [<-|Hx]; [reflexivity | now apply IHd] ..].
Qed.

Lemma str_of_Z_printable (z : Z) : printable (str_of_Z z).
Proof.
  unfold str_of_Z, NilEmpty.string_of_int.
  destruct (Z.to_int z) as [d|d].
  - apply string_of_uint_printable.
  - intros c [<-|H]; [reflexivity | now apply string_of_uint_printable in H].
Qed.

Lemma join_printable (sep : string) (parts : list string) :
  printable sep -> (forall p, In p parts -> printable p) ->
  printable (join sep parts).
Proof.
  intros Hs Hp c Hc. apply join_In in Hc.
  destruct Hc as [H|[p [Hin H]]]; [now apply Hs | now apply (Hp p)].
Qed.

Lemma dumps_printable (E : env) (v : value) :
  (forall f, printable (float_repr E f)) -> printable (dumps E v).
Proof.
  intros Hf.
  induction v as [ | b | n | f | s | items IH | entries IH ] using value_ind;
    cbn [dumps].
  - now apply printable_literal.
  - destruct b; now apply printable_literal.
  - apply str_of_Z_printable.
  - unfold dumps_float. destruct f as [s|[]| |s m e];
      try apply Hf; now apply printable_literal.
  - apply encode_str_printable.
  - repeat apply printable_app; try now apply printable_literal.
    apply join_printable; [now apply printable_literal|].
    intros p Hp. apply in_map_iff in Hp. destruct Hp as [x [<- Hx]].
    rewrite Forall_forall in IH. now apply IH.
  - repeat apply printable_app; try now apply printable_literal.
    apply join_printable; [now apply printable_literal|].
    intros p Hp. apply in_map_iff in Hp. destruct Hp as [[k x] [<- Hx]].
    rewrite Forall_forall in IH. cbn [fst snd].
    repeat apply printable_app;
      [apply encode_str_printable | now apply printable_literal
       | apply (IH (k, x) Hx)].
Qed.

Lemma replace_printable (old new s : string) :
  printable new -> printable s -> printable (replace old new s).
Proof.
  intros Hn Hs c Hc. unfold replace in Hc. apply replace_from_chars in Hc.
  destruct Hc; auto.
Qed.

(** ** The properties *)

(** A log entry holds no two hyphens in a row, wherever they stood in the
    JSON text. *)
Theorem log_line_has_no_double_hyphen (E : env) (jj : value) :
  contains dashes (log_line E jj) = false.
Proof.
  unfold log_line, neutralize, replace.
  apply (replace_dashes_clean _ 0).
Qed.

(** When the text of no float holds a control character, a log entry
    holds none: in particular no line feed and no carriage return, so the
    entry is one line of the document. *)
Theorem log_line_is_one_line (E : env) (jj : value) :
  (forall f c, In c (chars (float_repr E f)) -> is_control c = false) ->
  (forall c, In c (chars (log_line E jj)) -> is_control c = false)
  /\ ~ In newline (chars (log_line E jj))
  /\ ~ In (ascii_of_nat 13) (chars (log_line E jj)).
Proof.
  intros Hf.
  assert (H : printable (log_line E jj)).
  { unfold log_line, neutralize.
    apply replace_printable; [now apply printable_literal|].
    apply replace_printable; [now apply printable_literal|].
    now apply dumps_printable. }
  split; [exact H|]. split; intros Hc; apply H in Hc; discriminate.
Qed.

(** Two entries appended to the same document follow one another, each
    with its line feed, after the text that was there; the page shell is
    written once, before the first entry of a new document. *)
Theorem two_entries_in_order (E : env) (fs : filesystem) (path : string)
    (first second : value) :
  lookup path (write_entry E (write_entry E fs path first) path second)
  = Some (match lookup path fs with
          | Some old => old
          | None => preamble E
          end
          ++ log_line E first ++ char1 newline
          ++ log_line E second ++ char1 newline).
Proof.
  rewrite write_entry_lookup, write_entry_lookup.
  now rewrite !string_app_assoc.
Qed.

End LogStoreMore.

(** * Further properties of the normalizer *)

Module RenderMore.
Import PyStr Json Render LogStoreFacts TextFacts Notions.

Lemma no_angle_app (a b : string) :
  no_angle a -> no_angle b -> no_angle (a ++ b).
Proof.
  unfold no_angle. rewrite !chars_app, !in_app_iff. tauto.
Qed.

Lemma no_angle_esc (s : string) : no_angle (esc s).
Proof.
  split; [apply esc_no_lt | apply esc_no_gt].
Qed.

Lemma no_angle_literal (s : string) :
  forallb (fun c => negb (Ascii.eqb c lt_char || Ascii.eqb c LogStore.gt))
          (chars s) = true ->
  no_angle s.
Proof.
  intros H. rewrite forallb_forall in H.
  split; intros Hc; apply H in Hc; discriminate.
Qed.

Lemma short_arguments_no_angle (name arguments : value) (text : string) :
  short_arguments name arguments = Ok text -> no_angle text.
Proof.
  assert (Hdots : no_angle "...") by now apply no_angle_literal.
  unfold short_arguments.
  destruct (py_eq name (JStr "shell")); [|now intros [= <-]].
  destruct arguments as [ | | | | | | d]; try (now intros [= <-]).
  destruct (lookup "command" d) as [[ | | | | | command | ]|];
    try (now intros [= <-]).
  destruct command as [|c0 [|c1 [|c2 rest]]]; try (now intros [= <-]).
  destruct (py_eq c0 (JStr "bash")); [|now intros [= <-]].
  destruct (str_receiver c1) as [flag|e]; cbn [bind]; [|discriminate].
  destruct (startswith "-" flag); [|now intros [= <-]].
  destruct c2; try discriminate. intros [= <-]. apply no_angle_esc.
Qed.

(** ** The properties *)

(** The label of a function call holds no angle bracket but those of the
    bold tags around it: the name and the preview of the arguments are
    escaped. *)
Theorem function_call_label_escaped (E : env) (i : value) (bold : bool)
    (r : value) :
  render_function_call E i bold = Ok r ->
  exists inner arguments,
    r = JDict [("RENDER", JBool true);
               ("label", JStr ("function_call: "
                               ++ (if bold then "<b>" else EmptyString)
                               ++ inner
                               ++ (if bold then "</b>" else EmptyString)));
               ("content", arguments)]
    /\ no_angle inner.
Proof.
  unfold render_function_call.
  destruct (getitem i "arguments") as [raw|e]; cbn [bind]; [|discriminate].
  destruct (loads_or_self E true raw) as [arguments|e]; cbn [bind];
    [|discriminate].
  destruct (getitem i "name") as [name|e]; cbn [bind]; [|discriminate].
  destruct (short_arguments name arguments) as [shortargs|e] eqn:Hs;
    cbn [bind]; [|discriminate].
  destruct (str_receiver name) as [name_text|e]; cbn [bind]; [|discriminate].
  intros [= <-].
  exists (esc name_text ++ "(" ++ shortargs ++ ")"), arguments. split.
  - now rewrite !string_app_assoc.
  - repeat apply no_angle_app;
      try apply no_angle_esc; try now apply no_angle_literal.
    now apply (short_arguments_no_angle name arguments).
Qed.

(** Whatever [render_delta] returns carries the delta it was given:
    either it is that delta, or it is an open node whose last entry is
    the raw one with the delta as content. *)
Theorem render_delta_keeps_input (E : env) (now : datetime) (delta r : value) :
  render_delta E now delta = Ok r ->
  r = delta
  \/ carries ("[" ++ Clock.strftime_hms now ++ "] POST") r delta.
Proof.
  unfold render_delta. destruct delta as [ | | | | | | d];
    try (intros [= <-]; now left).
  destruct (no_known_key d); [intros [= <-]; now left|].
  destruct (render_delta_body E now d) as [rendered|e] eqn:Hb;
    intros [= <-]; [|now left].
  right. revert Hb. unfold render_delta_body.
  destruct (match lookup "instructions" d with
            | Some instructions =>
                node <- render_instructions instructions;; Ok [node]
            | None => Ok []
            end) as [part1|e]; cbn [bind]; [|discriminate].
  destruct (match lookup "tools" d with
            | Some tools => node <- render_tools tools;; Ok [node]
            | None => Ok []
            end) as [part2|e]; cbn [bind]; [|discriminate].
  match goal with
  | |- bind ?x _ = _ -> _ => destruct x as [part3|e]; cbn [bind]; [|discriminate]
  end.
  intros [= <-]. exists (part1 ++ part2 ++ part3)%list.
  unfold raw_json_node. now rewrite <- !app_assoc.
Qed.

(** Whatever [render_response] returns carries the response it was
    given, in the same way. *)
Theorem render_response_keeps_input (E : env) (now : datetime)
    (response r : value) :
  render_response E now response = Ok r ->
  r = response
  \/ carries ("[" ++ Clock.strftime_hms now ++ "] response.completed")
       r response.
Proof.
  unfold render_response.
  destruct (render_response_body E now response) as [rendered|e] eqn:Hb;
    intros [= <-]; [|now left].
  right. revert Hb. unfold render_response_body.
  destruct (getitem response "response") as [inner|e]; cbn [bind];
    [|discriminate].
  destruct (getitem inner "output") as [outputs|e]; cbn [bind]; [|discriminate].
  destruct (iterate outputs) as [items|e]; cbn [bind]; [|discriminate].
  destruct (collect (render_output_item E) items) as [content|e]; cbn [bind];
    [|discriminate].
  intros [= <-]. now exists content.
Qed.

Lemma collect_singletons (f : value -> result (list value)) (xs out : list value) :
  (forall x ys, f x = Ok ys -> List.length ys = 1) ->
  collect f xs = Ok out -> List.length out = List.length xs.
Proof.
  intros Hf. revert out. induction xs as [|x xs IH]; intros out; cbn [collect].
  - now intros [= <-].
  - destruct (f x) as [ys|e] eqn:Hx; cbn [bind]; [|discriminate].
    destruct (collect f xs) as [zs|e]; cbn [bind]; [|discriminate].
    intros [= <-]. rewrite length_app, (Hf x ys Hx), (IH zs eq_refl).
    reflexivity.
Qed.

(** The entry of a list of tools says how many tools there are and holds
    one entry for each of them. *)
Theorem one_entry_per_tool (tools : list value) (r : value) :
  render_tools (JList tools) = Ok r ->
  exists content,
    r = JDict [("RENDER", JBool true);
               ("label", JStr "tools: ");
               ("value", JStr ("[" ++ str_of_nat (List.length tools) ++ " tools]"));
               ("content", JList content)]
    /\ List.length content = List.length tools.
Proof.
  unfold render_tools. cbn [iterate bind py_len].
  destruct (collect render_tool tools) as [content|e] eqn:Hc; cbn [bind];
    [|discriminate].
  intros [= <-]. exists content. split; [reflexivity|].
  apply (collect_singletons render_tool); [|exact Hc].
  intros x ys. unfold render_tool.
  destruct (getitem x "name") as [name|e]; cbn [bind]; [|discriminate].
  destruct (str_receiver name) as [name_text|e]; cbn [bind]; [|discriminate].
  destruct (getitem x "parameters") as [parameters|e]; cbn [bind];
    [|discriminate].
  destruct (getitem x "description") as [description|e]; cbn [bind];
    [|discriminate].
  destruct (merge_description parameters description) as [content'|e];
    cbn [bind]; [|discriminate].
  now intros [= <-].
Qed.

End RenderMore.

(** * Further properties of the loop over the lines *)

Module LoopMore.
Import PyStr Json Delta LogStore Render Classifier.
Import DictFacts DeltaFacts LogStoreFacts RenderFacts ClassifierFacts.

(** What one turn of the loop can do to the time stamp, to the files and
    to the snapshot. *)
Lemma step_effect (E : env) (st : state) (input : datetime * string) :
  (is_session_start (snd input) = false ->
   timestamp (step E st input) = timestamp st)
  /\ (files (step E st input) = files st
      \/ (is_post (snd input) = true \/ is_sse_event (snd input) = true)
         /\ exists jj,
              files (step E st input)
              = write_entry E (files st)
                  (log_path E (timestamp st) (current_label st)) jj)
  /\ (prev (step E st input) = prev st
      \/ is_session_start (snd input) = true
      \/ is_post (snd input) = true).
Proof.
  unfold step, process_line.
  destruct (poisoned st); [cbn; tauto|].
  destruct (is_session_start (snd input)) eqn:Hs;
    [cbn; split; [discriminate|tauto]|].
  destruct (is_submission (snd input)); [cbn; tauto|].
  destruct (is_post (snd input)) eqn:Hp.
  { unfold on_post.
    destruct (match json_loads E (json_text (snd input)) with
              | LoadsValue v => Ok v
              | LoadsDecodeError => Ok malformed
              | LoadsOtherError => Raise OtherError
              end) as [post|e]; cbn [bind]; [|cbn; tauto].
    destruct (calculate_json_delta (prev st) post) as [[b delta]|e];
      cbn [bind]; [|cbn; tauto].
    destruct (render_delta E (fst input) delta) as [jj|e]; cbn [bind];
      [|cbn; tauto].
    cbn. repeat split; try tauto. right. split; [tauto|]. now exists jj. }
  destruct (is_sse_event (snd input)) eqn:He; [|cbn; tauto].
  unfold on_sse_event.
  destruct (json_loads E (json_text (snd input))) as [response| |];
    try (cbn; tauto).
  destruct (get_method response "type" (JStr EmptyString)) as [tag|e];
    cbn [bind]; [|cbn; tauto].
  destruct (negb (py_eq tag (JStr "response.completed"))); [cbn; tauto|].
  destruct (render_response E (fst input) response) as [jj|e]; cbn [bind];
    [|cbn; tauto].
  cbn. repeat split; try tauto. right. split; [tauto|]. now exists jj.
Qed.

Lemma step_grows (E : env) (st : state) (input : datetime * string)
    (path old : string) :
  lookup path (files st) = Some old ->
  exists suffix,
    lookup path (files (step E st input)) = Some (old ++ suffix).
Proof.
  intros Hl.
  destruct (step_effect E st input) as [_ [[Hf|[_ [jj Hf]]] _]]; rewrite Hf.
  - exists EmptyString. rewrite Hl. f_equal.
    clear. induction old as [|c s IH]; [reflexivity|]. cbn. now rewrite <- IH.
  - destruct (string_dec path (log_path E (timestamp st) (current_label st)))
      as [->|Hne].
    + rewrite write_entry_lookup, Hl. now eexists.
    + rewrite write_entry_other by assumption. exists EmptyString.
      rewrite Hl. f_equal.
      clear. induction old as [|c s IH]; [reflexivity|]. cbn. now rewrite <- IH.
Qed.

(** ** The properties *)

(** The log only grows: whatever a document holds before some lines are
    processed is the beginning of what it holds after them, so that no
    entry is ever rewritten or removed and no document is deleted. *)
Theorem log_only_grows (E : env) (inputs : list (datetime * string))
    (st : state) (path old : string) :
  lookup path (files st) = Some old ->
  exists suffix,
    lookup path (files (run E st inputs)) = Some (old ++ suffix).
Proof.
  unfold run. revert st old.
  induction inputs as [|input rest IH]; intros st old Hl; cbn [fold_left].
  - exists EmptyString. rewrite Hl. f_equal.
    clear. induction old as [|c s IH]; [reflexivity|]. cbn. now rewrite <- IH.
  - destruct (step_grows E st input path old Hl) as [s1 H1].
    destruct (IH _ _ H1) as [s2 H2]. exists (s1 ++ s2).
    rewrite H2. f_equal. apply TextFacts.string_app_assoc.
Qed.

(** Once a session has its label, the lines up to the next session
    boundary write into one document only: the time stamp and the label
    stay, and every other document is left as it was. *)
Theorem one_document_per_session (E : env) (inputs : list (datetime * string))
    (st : state) (p : string) :
  prompt st = Some p ->
  Forall (fun input => is_session_start (snd input) = false) inputs ->
  timestamp (run E st inputs) = timestamp st
  /\ prompt (run E st inputs) = Some p
  /\ forall path,
       path <> log_path E (timestamp st) p ->
       lookup path (files (run E st inputs)) = lookup path (files st).
Proof.
  unfold run. revert st.
  induction inputs as [|input rest IH]; intros st Hp Hall; cbn [fold_left];
    [now repeat split|].
  inversion Hall as [|? ? Hs Hrest]; subst.
  destruct (step_effect E st input) as [Ht [Hf _]]. specialize (Ht Hs).
  pose proof (step_keeps_label E st input p Hp Hs) as Hp'.
  destruct (IH _ Hp' Hrest) as [IHt [IHp IHf]].
  rewrite Ht in *. repeat split; [exact IHt | exact IHp |].
  intros path Hne. rewrite (IHf path Hne).
  destruct Hf as [Hf|[_ [jj Hf]]]; rewrite Hf; [reflexivity|].
  apply write_entry_other. unfold current_label. now rewrite Hp.
Qed.

(** Only the lines of posts and of events are written to the log: lines
    of no other kind change any document. *)
Theorem only_posts_and_events_write (E : env)
    (inputs : list (datetime * string)) (st : state) :
  Forall (fun input => is_post (snd input) = false
                       /\ is_sse_event (snd input) = false) inputs ->
  files (run E st inputs) = files st.
Proof.
  unfold run. revert st.
  induction inputs as [|input rest IH]; intros st Hall; cbn [fold_left];
    [reflexivity|].
  inversion Hall as [|? ? [Hp He] Hrest]; subst.
  rewrite (IH _ Hrest).
  destruct (step_effect E st input) as [_ [[Hf|[[Hc|Hc] _]] _]];
    [exact Hf | congruence | congruence].
Qed.

(** The snapshot against which the next post is compared is the last
    post of the session: the lines between two posts, events and
    submissions among them, leave it as it is. *)
Theorem snapshot_kept_between_posts (E : env)
    (inputs : list (datetime * string)) (st : state) :
  Forall (fun input => is_session_start (snd input) = false
                       /\ is_post (snd input) = false) inputs ->
  prev (run E st inputs) = prev st.
Proof.
  unfold run. revert st.
  induction inputs as [|input rest IH]; intros st Hall; cbn [fold_left];
    [reflexivity|].
  inversion Hall as [|? ? [Hs Hp] Hrest]; subst.
  rewrite (IH _ Hrest).
  destruct (step_effect E st input) as [_ [_ [Hv|[Hc|Hc]]]];
    [exact Hv | congruence | congruence].
Qed.

(** The first post after a session boundary is logged whole, whatever
    the snapshot of the session before was: the entry is the rendering
    of the post itself, and it opens the document named by the time of
    the boundary with the empty label. *)
Theorem first_post_logged_whole (E : env) (st : state)
    (t1 t2 : datetime) (boundary line : string) (post : value) :
  poisoned st = false ->
  is_session_start boundary = true ->
  is_session_start line = false ->
  is_submission line = false ->
  is_post line = true ->
  json_loads E (json_text line) = LoadsValue post ->
  exists jj,
    render_delta E t2 post = Ok jj
    /\ run E st [(t1, boundary); (t2, line)]
       = {| timestamp := t1; prompt := Some EmptyString; prev := post;
            poisoned := false;
            files := write_entry E (files st)
                       (log_path E t1 EmptyString) jj |}.
Proof.
  intros Hp Hb Hs Hsub Hpost Hloads.
  destruct (render_delta_ok E t2 post) as [jj Hr]. exists jj.
  split; [exact Hr|].
  unfold run. cbn [fold_left].
  assert (H1 : step E st (t1, boundary)
               = {| timestamp := t1; prompt := None; prev := JNull;
                    poisoned := false; files := files st |}).
  { unfold step, process_line. cbn [fst snd]. now rewrite Hp, Hb. }
  rewrite H1.
  rewrite (step_post E t2 line _ post post jj (py_eq JNull post));
    [reflexivity | reflexivity | exact Hs | exact Hsub | exact Hpost
    | now rewrite Hloads | | exact Hr].
  cbn [prev]. apply calc_scalar_eq; reflexivity.
Qed.

(** A post that carries the same mapping as the post before it adds the
    line of the empty mapping to the document, and nothing else. *)
Theorem repeated_post_logs_empty_mapping (E : env) (st : state)
    (now : datetime) (line : string) (d : dict) :
  poisoned st = false ->
  is_session_start line = false ->
  is_submission line = false ->
  is_post line = true ->
  json_value (JDict d) ->
  prev st = JDict d ->
  json_loads E (json_text line) = LoadsValue (JDict d) ->
  step E st (now, line) = after_post E st (JDict d) (JDict [])
  /\ lookup (log_path E (timestamp st) (current_label st))
       (files (step E st (now, line)))
     = Some (match lookup (log_path E (timestamp st) (current_label st))
                     (files st) with
             | Some old => old
             | None => preamble E
             end ++ "{}" ++ char1 newline).
Proof.
  intros Hp Hs Hsub Hpost Hj Hprev Hloads.
  assert (Hstep : step E st (now, line) = after_post E st (JDict d) (JDict [])).
  { apply (step_post E now line st (JDict d) (JDict []) (JDict []) true);
      try assumption.
    - now rewrite Hloads.
    - rewrite Hprev. apply (calc_self (JDict d) Hj).
    - reflexivity. }
  split; [exact Hstep|].
  rewrite Hstep. unfold after_post. cbn [files].
  now rewrite write_entry_lookup.
Qed.

End LoopMore.

(** * The theorems at concrete inputs *)

Module Examples.
Import PyStr Json Delta DeltaFacts.
Import Render LogStore Classifier ClassifierFacts Sample.

(** The scenario of the specification: the value under [b.x] changes
    from 1 to 2 and the key [c] is added. *)
Example delta_scenario :
  calculate_json_delta
    (JDict [("a", JInt 1); ("b", JDict [("x", JInt 1)])])
    (JDict [("a", JInt 1); ("b", JDict [("x", JInt 2)]); ("c", JInt 3)])
  = Ok (false, JDict [("+c", JInt 3); ("*b", JDict [("*x", JInt 2)])]).
Proof. reflexivity. Qed.

(** A NaN, which [json.loads] reads although JSON has none, is not
    identical to itself. *)
Example nan_differs_from_itself :
  calculate_json_delta (JFloat S754_nan) (JFloat S754_nan)
  = Ok (false, JFloat S754_nan).
Proof. reflexivity. Qed.

(** C1 as written fails on two equal sequences that are not empty: the
    change is no pure append, and the delta is the empty sequence, not
    the new one.  It also fails where the call raises (see C10). *)
Lemma shape_fails_on_equal_lists :
  calculate_json_delta (JList [JInt 1]) (JList [JInt 1]) = Ok (true, JList [])
  /\ ~ pure_append [JInt 1] [JInt 1]
  /\ ~ shape_as_stated (JList [JInt 1]) (JList [JInt 1])
  /\ ~ shape_as_stated (JDict [("k", JInt 1)]) (JDict [("k", JList [])]).
Proof.
  assert (Hnot : ~ pure_append [JInt 1] [JInt 1]).
  { intros [extra [Hne Heq]]. destruct extra; [congruence | discriminate]. }
  split; [reflexivity|]. split; [exact Hnot|]. split.
  - intros [b [d [Hc Hd]]]. cbv in Hc. injection Hc as <- <-.
    specialize (Hd Hnot). discriminate.
  - intros [b [d [Hc _]]]. cbv in Hc. discriminate.
Qed.

Lemma returned_delta_shape_witness :
  calculate_json_delta (JList [JInt 1; JInt 2]) (JList [JInt 1; JInt 3; JInt 4])
  = Ok (false, JList [JInt 1; JInt 3; JInt 4])
  /\ list_result (map calculate_json_delta [JInt 1; JInt 2])
       [JInt 1; JInt 3; JInt 4] false (JList [JInt 1; JInt 3; JInt 4]).
Proof.
  split; [reflexivity|].
  apply (returned_delta_shape (JList [JInt 1; JInt 2])
           (JList [JInt 1; JInt 3; JInt 4]) false
           (JList [JInt 1; JInt 3; JInt 4])).
  reflexivity.
Defined.

Lemma delta_of_equal_values_witness :
  json_value sample
  /\ calculate_json_delta sample sample = Ok (true, JDict []).
Proof.
  split; [reflexivity | apply (delta_of_equal_values sample); reflexivity].
Defined.

Lemma append_detection_witness :
  calculate_json_delta (JList [sample; JInt 2])
                       (JList ([sample; JInt 2] ++ [JStr "..."; JNull]))
  = Ok (false, JList [sentinel; JStr "..."; JNull]).
Proof.
  apply (append_detection [sample; JInt 2] [JStr "..."; JNull]).
  - repeat constructor.
  - discriminate.
Defined.

Lemma emptied_list_raises_witness :
  calculate_json_delta (JDict [("k", JList [JInt 1])])
                       (JDict [("k", JList [])])
  = Raise IndexError.
Proof.
  apply (emptied_list_raises [("k", JList [JInt 1])] [("k", JList [])]
           "k" (JList [JInt 1])).
  - reflexivity.
  - reflexivity.
  - discriminate.
Defined.

(** ** The log store and the normalizer *)

Example log_line_of_comment_end :
  log_line example_env (JDict [("a", JStr "x-->y"); ("b", JList [JInt (-3); JNull])])
  = "{" ++ quote ++ "a" ++ quote ++ ": " ++ quote
    ++ String "x" (String "-" (String backslash "u002d"))
    ++ String backslash "u003ey" ++ quote
    ++ ", " ++ quote ++ "b" ++ quote ++ ": [-3, null]}".
Proof. reflexivity. Qed.

(** A body that raises: a number is not iterable, and the delta comes
    back as it was given. *)
Example render_delta_falls_back :
  render_delta_body example_env clock [("tools", JInt 5)] = Raise TypeError
  /\ render_delta example_env clock (JDict [("tools", JInt 5)])
     = Ok (JDict [("tools", JInt 5)]).
Proof. split; reflexivity. Qed.

Example render_delta_instructions :
  render_delta example_env clock (JDict [("instructions", JStr "Be <nice>")])
  = Ok (JDict
          [("RENDER", JBool true); ("label", JStr "[07:05:00] POST");
           ("open", JBool true);
           ("content",
            JList
              [JDict
                 [("RENDER", JBool true); ("label", JStr "instructions: ");
                  ("value", JStr "Be &lt;nice&gt;... [1 lines]");
                  ("content", JStr "Be <nice>")];
               JDict
                 [("RENDER", JBool true); ("label", JStr "[raw json]");
                  ("content", JDict [("instructions", JStr "Be <nice>")])]])]).
Proof. reflexivity. Qed.

Example render_response_falls_back :
  render_response_body example_env clock (JDict [("type", JStr "response.completed")])
  = Raise KeyError
  /\ render_response example_env clock (JDict [("type", JStr "response.completed")])
     = Ok (JDict [("type", JStr "response.completed")]).
Proof. split; reflexivity. Qed.

(** ** The classifier *)

Lemma malformed_json_lines_witness :
  poisoned fresh = false
  /\ is_post malformed_post_line = true
  /\ is_sse_event malformed_event_line = true
  /\ json_loads example_env (json_text malformed_post_line) = LoadsDecodeError
  /\ prev (step example_env fresh (clock, malformed_post_line)) = malformed
  /\ step example_env fresh (clock, malformed_event_line) = fresh.
Proof.
  do 4 (split; [reflexivity|]). split.
  - destruct (proj1 (malformed_json_lines example_env clock malformed_post_line
                       fresh eq_refl eq_refl eq_refl eq_refl) eq_refl)
      as [identical [delta H]].
    apply H.
  - apply (proj2 (malformed_json_lines example_env clock malformed_event_line
                    fresh eq_refl eq_refl eq_refl eq_refl)); reflexivity.
Defined.

Lemma poison_is_sticky_witness :
  process_line example_env clock emptied_post_line with_snapshot
  = Raise IndexError
  /\ run example_env (step example_env with_snapshot (clock, emptied_post_line))
       [(clock, boundary_line); (clock, malformed_post_line)]
     = set_poisoned with_snapshot.
Proof.
  split; [reflexivity|].
  destruct (poison_is_sticky example_env with_snapshot (clock, emptied_post_line)
              IndexError eq_refl) as [Hst [_ [_ [Hrun _]]]].
  rewrite Hrun. exact Hst.
Defined.

(** C8 as written fails when an entry is logged before the first
    submission of the session: [log] has then set the empty label, and
    the submission line, the first one, leaves it. *)
Lemma first_submission_after_post :
  prompt fresh = None
  /\ poisoned fresh = false
  /\ is_session_start malformed_post_line = false
  /\ is_submission malformed_post_line = false
  /\ is_session_start (submission_line "hello") = false
  /\ is_submission (submission_line "hello") = true
  /\ offered_label (submission_line "hello") = " - hello"
  /\ prompt (run example_env fresh
               [(clock, malformed_post_line); (clock, submission_line "hello")])
     = Some EmptyString
  /\ ~ first_submission_assigns example_env fresh
        [(clock, malformed_post_line)] (clock, submission_line "hello").
Proof.
  repeat split. unfold first_submission_assigns. vm_compute. discriminate.
Qed.

Lemma label_assigned_once_witness :
  poisoned fresh = false
  /\ is_submission (submission_line "hello") = true
  /\ prompt (step example_env fresh (clock, submission_line "hello"))
     = Some " - hello"
  /\ prompt (run example_env
               (step example_env fresh (clock, submission_line "hello"))
               [(clock, malformed_post_line); (clock, submission_line "bye")])
     = Some " - hello".
Proof.
  destruct (label_assigned_once example_env fresh clock (submission_line "hello")
              [(clock, malformed_post_line); (clock, submission_line "bye")]
              eq_refl eq_refl eq_refl)
    as [Hl [_ [_ [_ [_ [Hrun _]]]]]].
  - repeat constructor.
  - do 2 (split; [reflexivity|]). split; [exact Hl | rewrite Hrun; exact Hl].
Defined.

End Examples.

(** * The further properties at concrete inputs *)

Module MoreExamples.
Import PyStr Json Delta LogStore Render Classifier Sample MoreSample Notions.
Import TextFacts DeltaFacts DeltaMore LogStoreMore RenderMore LoopMore.

(** A character that a literal text does not hold. *)
Ltac absent :=
  let H := fresh "H" in
  intros H; vm_compute in H;
  repeat (destruct H as [H|H]; [discriminate|]); exact H.


(** ** Texts *)

Lemma esc_plain_text_witness : esc "plain text" = "plain text".
Proof.
  apply (esc_plain_text "plain text"); absent.
Defined.

Lemma unescape_rust_plain_witness : unescape_rust "fix the bug" = "fix the bug".
Proof.
  apply (unescape_rust_plain "fix the bug"); absent.
Defined.


Lemma json_text_starts_with_brace_witness :
  has_brace emptied_post_line = true
  /\ startswith (char1 brace) (json_text emptied_post_line) = true.
Proof.
  split; [reflexivity|].
  apply (json_text_starts_with_brace emptied_post_line). reflexivity.
Defined.

(** ** Deltas *)

Lemma only_index_error_witness :
  calculate_json_delta (prev with_snapshot) (JDict [("k", JList [])])
  = Raise IndexError
  /\ IndexError = IndexError.
Proof.
  split; [reflexivity|].
  apply (only_index_error (prev with_snapshot) (JDict [("k", JList [])])).
  reflexivity.
Defined.

Lemma identical_delta_is_empty_witness :
  calculate_json_delta flags flags_again = Ok (true, JDict [])
  /\ JDict [] = empty_like flags_again.
Proof.
  split; [reflexivity|].
  apply (identical_delta_is_empty flags flags_again). reflexivity.
Defined.

Lemma identical_symmetric_witness :
  identical flags flags_again /\ identical flags_again flags.
Proof.
  assert (H : identical flags flags_again) by (exists (JDict []); reflexivity).
  split; [exact H|].
  apply (identical_symmetric flags flags_again H).
Defined.

Lemma delta_reports_every_change_witness :
  calculate_json_delta (JDict before) (JDict after)
  = Ok (false, JDict before_after_delta)
  /\ mem (removed_key "a") before_after_delta = true
  /\ mem (added_key "d") before_after_delta = true
  /\ (mem (changed_key "b") before_after_delta = true
      \/ mem (appended_key "b") before_after_delta = true).
Proof.
  split; [reflexivity|].
  destruct (delta_reports_every_change before after before_after_delta false
              eq_refl) as [Hr [Ha Hc]].
  split; [|split].
  - apply Hr; [cbn; tauto|]. absent.
  - apply Ha; [cbn; tauto|]. absent.
  - apply (Hc "b" (JInt 2) (JInt 5)); [reflexivity | reflexivity |].
    intros [d Hd]. discriminate Hd.
Defined.

Lemma append_under_key_reported_witness :
  calculate_json_delta (JDict turn1) (JDict turn2)
  = Ok (false, JDict turn_delta)
  /\ lookup (appended_key "input") turn_delta = Some (JList [JStr "there"]).
Proof.
  split; [reflexivity|].
  apply (append_under_key_reported turn1 turn2 turn_delta false "input"
           [JStr "hi"] [JStr "there"]).
  - reflexivity.
  - intros k' [H|H]; cbn in H; destruct H as [<-|[]]; reflexivity.
  - reflexivity.
  - reflexivity.
  - repeat constructor.
  - discriminate.
Defined.

Lemma appended_entry_sound_witness :
  calculate_json_delta (JDict turn1) (JDict turn2)
  = Ok (false, JDict turn_delta)
  /\ grew_by (JList [JStr "hi"]) (JList [JStr "hi"; JStr "there"])
       (JList [JStr "there"]).
Proof.
  split; [reflexivity|].
  apply (appended_entry_sound turn1 turn2 turn_delta false "input").
  - reflexivity.
  - intros k' [H|H]; cbn in H; destruct H as [<-|[]]; reflexivity.
  - reflexivity.
  - reflexivity.
  - intros tail H. vm_compute in H. discriminate H.
  - reflexivity.
Defined.

(** ** The log store *)

Lemma log_line_is_one_line_witness :
  ~ In newline (chars (log_line example_env two_lines)).
Proof.
  apply (log_line_is_one_line example_env two_lines).
  intros f c H. cbn in H.
  repeat (destruct H as [H|H]; [subst c; reflexivity|]). destruct H.
Defined.

(** ** The normalizer *)

Lemma function_call_label_escaped_witness :
  exists inner arguments,
    call_rendered
    = JDict [("RENDER", JBool true);
             ("label", JStr ("function_call: " ++ "<b>" ++ inner ++ "</b>"));
             ("content", arguments)]
    /\ no_angle inner.
Proof.
  apply (function_call_label_escaped example_env call_item true call_rendered).
  reflexivity.
Defined.

Lemma render_delta_keeps_input_witness :
  instructions_rendered = instructions_delta
  \/ carries "[07:05:00] POST" instructions_rendered instructions_delta.
Proof.
  apply (render_delta_keeps_input example_env clock instructions_delta
           instructions_rendered).
  reflexivity.
Defined.

Lemma render_response_keeps_input_witness :
  empty_response_rendered = empty_response
  \/ carries "[07:05:00] response.completed"
       empty_response_rendered empty_response.
Proof.
  apply (render_response_keeps_input example_env clock empty_response
           empty_response_rendered).
  reflexivity.
Defined.

Lemma one_entry_per_tool_witness :
  exists content,
    shell_tool_rendered
    = JDict [("RENDER", JBool true);
             ("label", JStr "tools: ");
             ("value", JStr ("[" ++ str_of_nat 1 ++ " tools]"));
             ("content", JList content)]
    /\ List.length content = 1.
Proof.
  apply (one_entry_per_tool [shell_tool] shell_tool_rendered). reflexivity.
Defined.

(** ** The loop *)

Lemma log_only_grows_witness :
  exists suffix,
    lookup "notes.txt"
      (files (run example_env labelled
                [(clock, emptied_post_line); (clock, boundary_line);
                 (clock, malformed_post_line)]))
    = Some ("kept" ++ suffix).
Proof.
  apply (log_only_grows example_env
           [(clock, emptied_post_line); (clock, boundary_line);
            (clock, malformed_post_line)] labelled "notes.txt" "kept").
  reflexivity.
Defined.

Lemma one_document_per_session_witness :
  timestamp (run example_env labelled
               [(clock, emptied_post_line); (clock, submission_line "bye");
                (clock, malformed_post_line)])
  = clock
  /\ prompt (run example_env labelled
               [(clock, emptied_post_line); (clock, submission_line "bye");
                (clock, malformed_post_line)])
     = Some " - hello"
  /\ forall path,
       path <> log_path example_env clock " - hello" ->
       lookup path
         (files (run example_env labelled
                   [(clock, emptied_post_line); (clock, submission_line "bye");
                    (clock, malformed_post_line)]))
       = lookup path (files labelled).
Proof.
  apply (one_document_per_session example_env
           [(clock, emptied_post_line); (clock, submission_line "bye");
            (clock, malformed_post_line)] labelled " - hello").
  - reflexivity.
  - repeat constructor.
Defined.

Lemma only_posts_and_events_write_witness :
  files (run example_env labelled
           [(clock, boundary_line); (clock, submission_line "bye")])
  = files labelled.
Proof.
  apply (only_posts_and_events_write example_env
           [(clock, boundary_line); (clock, submission_line "bye")] labelled).
  repeat constructor.
Defined.

Lemma snapshot_kept_between_posts_witness :
  prev (run example_env with_snapshot
          [(clock, submission_line "hello"); (clock, malformed_event_line)])
  = prev with_snapshot.
Proof.
  apply (snapshot_kept_between_posts example_env
           [(clock, submission_line "hello"); (clock, malformed_event_line)]
           with_snapshot).
  repeat constructor.
Defined.

Lemma first_post_logged_whole_witness :
  exists jj,
    render_delta example_env clock (JDict [("k", JList [])]) = Ok jj
    /\ run example_env with_snapshot
         [(clock, boundary_line); (clock, emptied_post_line)]
       = {| timestamp := clock; prompt := Some EmptyString;
            prev := JDict [("k", JList [])];
            poisoned := false;
            files := write_entry example_env (files with_snapshot)
                       (log_path example_env clock EmptyString) jj |}.
Proof.
  apply (first_post_logged_whole example_env with_snapshot clock clock
           boundary_line emptied_post_line (JDict [("k", JList [])]));
    reflexivity.
Defined.

Lemma repeated_post_logs_empty_mapping_witness :
  step example_env repeated (clock, emptied_post_line)
  = after_post example_env repeated (JDict [("k", JList [])]) (JDict [])
  /\ lookup (log_path example_env clock EmptyString)
       (files (step example_env repeated (clock, emptied_post_line)))
     = Some (preamble example_env ++ "{}" ++ char1 newline).
Proof.
  apply (repeated_post_logs_empty_mapping example_env repeated clock
           emptied_post_line [("k", JList [])]); reflexivity.
Defined.

End MoreExamples.
